(** * ClusterMap: reading partitions from .tree / .ftree / .clu files

    A shallow embedding of [src/core/ClusterMap.cpp] (namespace infomap):
    [ClusterMap::readClusterData], [ClusterMap::readTree] and
    [ClusterMap::readClu], together with the part of the C++ stream library
    these functions drive ([std::istringstream] extraction, [std::getline],
    [get]).

    - [unsigned int] is [N], with the 32-bit range written out where the
      code can leave it ([UINT_MAX], [uwrap]).
    - [double] is the rational number its decimal token denotes, kept in
      lowest terms ([Q] after [Qred]); the rounding to binary64 is not
      modelled, the overflow that makes an extraction fail is.
    - [std::map] is [gmap], [std::vector] is [list], the nullable pointer
      [layerNodeToStateId] is an [option].
    - The object is threaded explicitly; an exception leaves the object as
      the code had mutated it so far, so [Throw] carries the object too. *)

From Stdlib Require Import String Ascii NArith ZArith QArith Qabs Lia.
From stdpp Require Import base option list gmap strings pretty.

Local Open Scope string_scope.
Local Open Scope N_scope.

(** ** Characters *)

Module Char.

Definition code (c : ascii) : N := N_of_ascii c.

(** [std::isspace] in the classic locale: space, \t \n \v \f \r. *)
Definition isspace (c : ascii) : bool :=
  (code c =? 32) || ((9 <=? code c) && (code c <=? 13)).

Definition isdigit (c : ascii) : bool :=
  (48 <=? code c) && (code c <=? 57).

Definition digit (c : ascii) : N := code c - 48.

Definition eqb (a b : ascii) : bool := code a =? code b.

Definition dquote : ascii := ascii_of_N 34.
Definition newline : ascii := ascii_of_N 10.
Definition plus : ascii := ascii_of_N 43.
Definition minus : ascii := ascii_of_N 45.
Definition dot : ascii := ascii_of_N 46.
Definition hash : ascii := ascii_of_N 35.
Definition star : ascii := ascii_of_N 42.

Definition issign (c : ascii) : bool := eqb c plus || eqb c minus.
Definition isexp (c : ascii) : bool := (code c =? 101) || (code c =? 69).

End Char.

(** ** Text helpers *)

Definition is_empty (s : string) : bool :=
  match s with EmptyString => true | String _ _ => false end.

Fixpoint skip_ws (s : string) : string :=
  match s with
  | String c s' => if Char.isspace c then skip_ws s' else s
  | EmptyString => s
  end.

(** The longest prefix whose characters satisfy [p], and what follows it. *)
Fixpoint span (p : ascii -> bool) (s : string) : string * string :=
  match s with
  | String c s' =>
      if p c then let '(a, b) := span p s' in (String c a, b)
      else (EmptyString, s)
  | EmptyString => (EmptyString, EmptyString)
  end.

(** The text before the first [delim] and the text after it. *)
Fixpoint split_at (delim : ascii) (s : string) : option (string * string) :=
  match s with
  | String c s' =>
      if Char.eqb c delim then Some (EmptyString, s')
      else match split_at delim s' with
           | Some (a, b) => Some (String c a, b)
           | None => None
           end
  | EmptyString => None
  end.

(** Does [c] occur in [s]? *)
Fixpoint has_char (c : ascii) (s : string) : bool :=
  match s with
  | String c0 s' => Char.eqb c0 c || has_char c s'
  | EmptyString => false
  end.

(** Value of a run of decimal digits, most significant first. *)
Fixpoint digits_val (acc : N) (ds : string) : N :=
  match ds with
  | String c ds' => digits_val (10 * acc + Char.digit c) ds'
  | EmptyString => acc
  end.

(** An optional sign: whether it was a minus, and the text after it. *)
Definition take_sign (s : string) : bool * string :=
  match s with
  | String c s' =>
      if Char.eqb c Char.minus then (true, s')
      else if Char.eqb c Char.plus then (false, s')
      else (false, s)
  | EmptyString => (false, s)
  end.

(** ** unsigned int and double *)

Definition UINT_MAX : N := 4294967295.

(** Arithmetic of [unsigned int] is modulo 2^32. *)
Definition uwrap (n : Z) : N := Z.to_N (n mod 2 ^ 32).

(** Magnitudes from here on round to an infinity: half an ulp above the
    largest finite binary64 number. *)
Definition DBL_OVERFLOW : Q := inject_Z (2 ^ 1024 - 2 ^ 970).

(** The number [m * 10 ^ e], in lowest terms. *)
Definition decimal (m e : Z) : Q :=
  Qred (if (0 <=? e)%Z then (m * 10 ^ e) # 1
        else m # Z.to_pos (10 ^ (- e))).

(** ** std::istringstream

    The unread characters and the two state bits the code can observe.
    [badbit] is never set by a string buffer. *)

Record istream := mkStream {
  rdbuf : string;
  eofbit : bool;
  failbit : bool
}.

Module Stream.

(** [lineStream.clear(); lineStream.str(line)]. *)
Definition str (line : string) : istream := mkStream line false false.

Definition good (s : istream) : bool := negb (eofbit s) && negb (failbit s).

(** [!stream], the test of every [if (!(stream >> x))]. *)
Definition fail (s : istream) : bool := failbit s.

Definition setfail (s : istream) : istream :=
  mkStream (rdbuf s) (eofbit s) true.

(** [istream::sentry]: refuses a stream that is not good; with [skipws]
    it discards leading white space and refuses when that reaches the
    end of the buffer. *)
Definition sentry (noskipws : bool) (s : istream) : bool * istream :=
  if negb (good s) then (false, setfail s)
  else if noskipws then (true, s)
  else
    let b := skip_ws (rdbuf s) in
    if is_empty b then (false, mkStream b true true)
    else (true, mkStream b false false).

(** [stream >> std::string]: one white-space delimited token. *)
Definition extract_string (s : istream) : istream * string :=
  let '(ok, s) := sentry false s in
  if ok then
    let '(tok, rest) := span (fun c => negb (Char.isspace c)) (rdbuf s) in
    (mkStream rest (is_empty rest) (is_empty tok), tok)
  else (s, EmptyString).

(** [stream >> unsigned int] ([num_get], base ten): an optional sign, then
    at least one digit.  No digit: failure and 0.  A magnitude above
    [UINT_MAX]: failure and [UINT_MAX].  A minus sign negates modulo
    2^32.  On failure of the sentry the variable is left as it was; the
    code never reads a variable after a failed extraction, and 0 stands
    for it here. *)
Definition extract_unsigned (s : istream) : istream * N :=
  let '(ok, s) := sentry false s in
  if ok then
    let '(negative, b) := take_sign (rdbuf s) in
    let '(ds, rest) := span Char.isdigit b in
    if is_empty ds then (mkStream rest (is_empty rest) true, 0)
    else
      let v := digits_val 0 ds in
      if UINT_MAX <? v then (mkStream rest (is_empty rest) true, UINT_MAX)
      else (mkStream rest (is_empty rest) false,
            if negative then uwrap (- Z.of_N v) else v)
  else (s, 0).

(** [stream >> double] ([num_get] for floating point): an optional sign,
    digits with at most one decimal point, and, once a digit was seen, an
    exponent letter with an optional sign and digits.  The characters
    taken must form a complete number (a digit in the mantissa, and a
    digit in the exponent when there is one), else the extraction fails;
    so does a number too large for a double. *)
Definition extract_double (s : istream) : istream * Q :=
  let '(ok, s) := sentry false s in
  if ok then
    let '(negative, b) := take_sign (rdbuf s) in
    let '(ip, r1) := span Char.isdigit b in
    let '(fp, r2) :=
      match r1 with
      | String c r =>
          if Char.eqb c Char.dot then span Char.isdigit r
          else (EmptyString, r1)
      | EmptyString => (EmptyString, r1)
      end in
    let mantissa := ip +:+ fp in
    let '(complete, e, r3) :=
      match r2 with
      | String c r =>
          if Char.isexp c && negb (is_empty mantissa) then
            let '(eneg, r') := take_sign r in
            let '(ed, r'') := span Char.isdigit r' in
            let ev := Z.of_N (digits_val 0 ed) in
            (negb (is_empty ed), if eneg then (- ev)%Z else ev, r'')
          else (true, 0%Z, r2)
      | EmptyString => (true, 0%Z, r2)
      end in
    let m := Z.of_N (digits_val 0 mantissa) in
    let v := decimal (if negative then - m else m)%Z
                     (e - Z.of_nat (String.length fp))%Z in
    if negb (is_empty mantissa) && complete then
      if Qle_bool DBL_OVERFLOW (Qabs v)
      then (mkStream r3 (is_empty r3) true, v)
      else (mkStream r3 (is_empty r3) false, v)
    else (mkStream r3 (is_empty r3) true, 0%Q)
  else (s, 0%Q).

(** [std::getline(stream, name, delim)]: the characters up to the
    delimiter, which is taken from the stream and dropped; without a
    delimiter everything that is left, setting [eofbit].  It fails only
    when it takes no character at all. *)
Definition getline (s : istream) (delim : ascii) : istream * string :=
  let '(ok, s) := sentry true s in
  if ok then
    match split_at delim (rdbuf s) with
    | Some (a, rest) => (mkStream rest false false, a)
    | None => (mkStream EmptyString true (is_empty (rdbuf s)), rdbuf s)
    end
  else (s, EmptyString).

(** [stream.get()], result ignored: takes one character. *)
Definition get (s : istream) : istream :=
  let '(ok, s) := sentry true s in
  if ok then
    match rdbuf s with
    | String _ r => mkStream r false false
    | EmptyString => mkStream EmptyString true true
    end
  else s.

End Stream.

(** ** The object and its exceptions *)

Inductive exn :=
| ImplementationError (what : string)
| FileFormatError (what : string)
| BadConversionError (what : string)
| FileOpenError (filename : string).

Definition Path := list N.

Record ClusterMap := mkClusterMap {
  m_clusterIds : gmap N N;
  m_flowData : gmap N Q;
  m_nodePaths : list (N * Path);
  m_extension : string;
  m_isHigherOrder : bool
}.

Definition set_clusterIds (f : gmap N N -> gmap N N) (this : ClusterMap) :=
  mkClusterMap (f (m_clusterIds this)) (m_flowData this) (m_nodePaths this)
               (m_extension this) (m_isHigherOrder this).
Definition set_flowData (f : gmap N Q -> gmap N Q) (this : ClusterMap) :=
  mkClusterMap (m_clusterIds this) (f (m_flowData this)) (m_nodePaths this)
               (m_extension this) (m_isHigherOrder this).
Definition set_nodePaths (f : list (N * Path) -> list (N * Path))
    (this : ClusterMap) :=
  mkClusterMap (m_clusterIds this) (m_flowData this) (f (m_nodePaths this))
               (m_extension this) (m_isHigherOrder this).
Definition set_extension (e : string) (this : ClusterMap) :=
  mkClusterMap (m_clusterIds this) (m_flowData this) (m_nodePaths this)
               e (m_isHigherOrder this).
Definition set_isHigherOrder (b : bool) (this : ClusterMap) :=
  mkClusterMap (m_clusterIds this) (m_flowData this) (m_nodePaths this)
               (m_extension this) b.

(** Modelled from the spec: the class is declared in ClusterMap.h, which is
    not part of the source file.  A newly constructed object has empty
    collections, and its higher-order flag, which only a record with a node
    id sets, is not set. *)
Definition fresh : ClusterMap := mkClusterMap ∅ ∅ [] EmptyString false.

(** ** A monad for member functions

    How a piece of code ends ([continue] and [break] belong to the
    enclosing loop), paired with the object as it then is. *)

Inductive completion (A : Type) :=
| Normal (a : A)
| Continue
| Break
| Throw (e : exn).
Arguments Normal {A} a.
Arguments Continue {A}.
Arguments Break {A}.
Arguments Throw {A} e.

Definition M (A : Type) : Type := ClusterMap -> completion A * ClusterMap.

Definition ret {A} (a : A) : M A := fun this => (Normal a, this).

Definition bind {A B} (m : M A) (k : A -> M B) : M B :=
  fun this =>
    match m this with
    | (Normal a, this') => k a this'
    | (Continue, this') => (Continue, this')
    | (Break, this') => (Break, this')
    | (Throw e, this') => (Throw e, this')
    end.

Definition throw {A} (e : exn) : M A := fun this => (Throw e, this).
Definition continue {A} : M A := fun this => (Continue, this).
Definition break {A} : M A := fun this => (Break, this).
Definition member {A} (f : ClusterMap -> A) : M A :=
  fun this => (Normal (f this), this).
Definition assign (f : ClusterMap -> ClusterMap) : M unit :=
  fun this => (Normal tt, f this).
Definition when (b : bool) (m : M unit) : M unit := if b then m else ret tt.
Definition lift {A} (r : exn + A) : M A :=
  match r with inl e => throw e | inr a => ret a end.

#[global] Instance M_ret : MRet M := @ret.
#[global] Instance M_bind : MBind M := fun A B k m => bind m k.

(** ** Collaborators that are not part of the source file *)

(** The files the program can open: the text of each readable file. *)
Definition filesystem := string -> option string.

(** Modelled from the spec: [SafeInFile] of io/SafeFile.h is not part of
    the source file, and the spec leaves the handling of files to it.
    [SafeInFile input(filename)] yields the stream of the file, or throws
    when the file cannot be opened. *)
Definition SafeInFile (fs : filesystem) (filename : string) : M string :=
  match fs filename with
  | Some text => ret text
  | None => throw (FileOpenError filename)
  end.

(** The lines that successive [std::getline(input, line)] calls deliver
    before one fails: the text is cut at each newline, and a last line
    without a newline still counts, an empty remainder does not. *)
Fixpoint getlines (text : string) : list string :=
  match text with
  | EmptyString => []
  | String c text' =>
      if Char.eqb c Char.newline then EmptyString :: getlines text'
      else match getlines text' with
           | [] => [String c EmptyString]
           | l :: ls => String c l :: ls
           end
  end.

Fixpoint after_last_dot (s : string) : option string :=
  match s with
  | EmptyString => None
  | String c s' =>
      match after_last_dot s' with
      | Some e => Some e
      | None => if Char.eqb c Char.dot then Some s' else None
      end
  end.

(** Modelled from the spec: [FileURI::getExtension] of utils/FileURI.h is
    not part of the source file.  The spec derives the extension
    case-sensitively from the suffix of the path after its last dot; a path
    with no dot is given the empty extension. *)
Definition getExtension (filename : string) : string :=
  default EmptyString (after_last_dot filename).

(** ** ClusterMap::readTree *)

Definition starts_with (c : ascii) (line : string) : bool :=
  match line with
  | String c0 _ => Char.eqb c0 c
  | EmptyString => false
  end.

(** The multilayer lookup both readers share: the state id registered for
    the node in the layer, if both are in the table. *)
Definition resolve (table : gmap N (gmap N N)) (layerId nodeId : N)
    : option N :=
  match table !! layerId with
  | Some nodeIdToStateId => nodeIdToStateId !! nodeId
  | None => None
  end.

(** What lines 64-85 read from a record: the path token, the flow, the
    quoted name and the state id, and the stream after them. *)
Record treeFields := mkTreeFields {
  tf_stream : istream;
  tf_pathString : string;
  tf_flow : Q;
  tf_name : string;
  tf_stateId : N
}.

Definition cant_parse_name (lineNr : N) (line : string) : exn :=
  BadConversionError ("Can't parse node name from line " +:+ pretty lineNr
                      +:+ " ('" +:+ line +:+ "').").

Definition readTree_fields (lineNr : N) (line : string) : exn + treeFields :=
  let lineStream := Stream.str line in
  let '(lineStream, pathString) := Stream.extract_string lineStream in
  if Stream.fail lineStream then
    inl (FileFormatError
           ("Couldn't parse tree path from line '" +:+ line +:+ "'"))
  else
  let '(lineStream, flow) := Stream.extract_double lineStream in
  if Stream.fail lineStream then
    inl (FileFormatError
           ("Couldn't parse node flow from line '" +:+ line +:+ "'"))
  else
  let '(lineStream, name) := Stream.getline lineStream Char.dquote in
  if Stream.fail lineStream then inl (cant_parse_name lineNr line)
  else
  let '(lineStream, name) := Stream.getline lineStream Char.dquote in
  if Stream.fail lineStream then inl (cant_parse_name lineNr line)
  else
  let '(lineStream, stateId) := Stream.extract_unsigned lineStream in
  if Stream.fail lineStream then
    inl (FileFormatError
           ("Couldn't parse node id from line '" +:+ line +:+ "'"))
  else inr (mkTreeFields lineStream pathString flow name stateId).

Definition zero_in_path : exn :=
  FileFormatError
    "There is a '0' in the tree path, lowest allowed integer is 1.".

(** The loop of lines 118-123.  Every turn that goes on has taken at least
    one digit from [pathStream], so [fuel] above the number of unread
    characters is never used up ([decodePath_loop_total]); [None] is the
    loop cut short for lack of fuel. *)
Fixpoint decodePath_loop (fuel : nat) (pathStream : istream) (path : Path)
    : option (exn + Path) :=
  match fuel with
  | O => None
  | S fuel' =>
      let '(pathStream, childNumber) := Stream.extract_unsigned pathStream in
      if Stream.fail pathStream then Some (inr path)
      else
        let pathStream := Stream.get pathStream in
        if childNumber =? 0 then Some (inl zero_in_path)
        else decodePath_loop fuel' pathStream (path ++ [childNumber])%list
  end.

(** Lines 113-123. *)
Definition decodePath (pathString : string) : exn + Path :=
  default (inr [])
    (decodePath_loop (S (String.length pathString))
                     (Stream.str pathString) []).

Definition missing_state_id (line : string) : exn :=
  FileFormatError ("Missing state id for node on line '" +:+ line +:+ "'.").

Definition cant_parse_layer (line : string) : exn :=
  FileFormatError ("Couldn't parse layer id from line '" +:+ line +:+ "'").

(** Lines 86-107: the optional node id and the higher-order flag, the
    layer id of a multilayer record, and the lookup.  The result is the
    state id to emit under and [multilayerNodeFound]. *)
Definition readTree_ids (layerNodeToStateId : option (gmap N (gmap N N)))
    (line : string) (f : treeFields) : M (N * bool) :=
  let isMultilayer := bool_decide (is_Some layerNodeToStateId) in
  let '(lineStream, nodeId) := Stream.extract_unsigned (tf_stream f) in
  (if negb (Stream.fail lineStream) then assign (set_isHigherOrder true)
   else
     higher ← member m_isHigherOrder;
     when higher (throw (missing_state_id line))) ;;
  let '(lineStream, layerId) :=
    if isMultilayer then Stream.extract_unsigned lineStream
    else (lineStream, 0) in
  when (isMultilayer && Stream.fail lineStream)
    (throw (cant_parse_layer line)) ;;
  let found :=
    match layerNodeToStateId with
    | Some table => resolve table layerId nodeId
    | None => None
    end in
  ret (default (tf_stateId f) found, bool_decide (is_Some found)).

(** Lines 64-128: a line that is a record. *)
Definition readTree_record (includeFlow : bool)
    (layerNodeToStateId : option (gmap N (gmap N N)))
    (lineNr : N) (line : string) : M unit :=
  let isMultilayer := bool_decide (is_Some layerNodeToStateId) in
  f ← lift (readTree_fields lineNr line);
  ids ← readTree_ids layerNodeToStateId line f;
  let '(stateId, multilayerNodeFound) := ids in
  if isMultilayer && negb multilayerNodeFound then continue
  else
    path ← lift (decodePath (tf_pathString f));
    assign (set_nodePaths (fun v => (v ++ [(stateId, path)])%list)) ;;
    when includeFlow (assign (set_flowData <[stateId := tf_flow f]>)).

(** One turn of the loop of [readTree], lines 49-128, on the line just
    read; [lineNr] is already incremented.  The locals [header] and
    [section] are written and never read, and are left out. *)
Definition readTree_line (includeFlow : bool)
    (layerNodeToStateId : option (gmap N (gmap N N)))
    (lineNr : N) (line : string) : M unit :=
  if (String.length line =? 0)%nat then continue
  else if starts_with Char.hash line then continue
  else if starts_with Char.star line then break
  else readTree_record includeFlow layerNodeToStateId lineNr line.

(** The [while] loop over the lines of the file; [lineNr] counts the lines
    read so far, as an [unsigned int]. *)
Fixpoint readTree_loop (includeFlow : bool)
    (layerNodeToStateId : option (gmap N (gmap N N)))
    (lines : list string) (lineNr : N) : M unit :=
  match lines with
  | [] => ret tt
  | line :: lines' =>
      let lineNr := uwrap (Z.of_N lineNr + 1) in
      fun this =>
        match readTree_line includeFlow layerNodeToStateId lineNr line this
        with
        | (Normal _, this') | (Continue, this') =>
            readTree_loop includeFlow layerNodeToStateId lines' lineNr this'
        | (Break, this') => (Normal tt, this')
        | (Throw e, this') => (Throw e, this')
        end
  end.

Definition readTree (fs : filesystem) (filename : string)
    (includeFlow : bool) (layerNodeToStateId : option (gmap N (gmap N N)))
    : M unit :=
  input ← SafeInFile fs filename;
  assign (set_nodePaths (fun _ => [])) ;;
  readTree_loop includeFlow layerNodeToStateId (getlines input) 0.

(** ** ClusterMap::readClu *)

(** One turn of the loop of [readClu], lines 143-188. *)
Definition readClu_line (includeFlow : bool)
    (layerNodeToStateId : option (gmap N (gmap N N)))
    (line : string) : M unit :=
  let isMultilayer := bool_decide (is_Some layerNodeToStateId) in
  if (String.length line =? 0)%nat || starts_with Char.hash line
     || starts_with Char.star line
  then continue
  else
    let lineStream := Stream.str line in
    let '(lineStream, stateId) := Stream.extract_unsigned lineStream in
    let '(lineStream, moduleId) := Stream.extract_unsigned lineStream in
    when (Stream.fail lineStream)
      (throw (FileFormatError
                ("Couldn't parse node key and cluster id from line '"
                 +:+ line +:+ "'"))) ;;
    let '(lineStream, flow) := Stream.extract_double lineStream in
    when (negb (Stream.fail lineStream) && includeFlow)
      (assign (set_flowData <[stateId := flow]>)) ;;
    found ←
      match layerNodeToStateId with
      | Some table =>
          let '(lineStream, nodeId) := Stream.extract_unsigned lineStream in
          when (Stream.fail lineStream)
            (throw (FileFormatError
                      ("Couldn't parse node key from line '" +:+ line
                       +:+ "'"))) ;;
          let '(lineStream, layerId) := Stream.extract_unsigned lineStream in
          when (Stream.fail lineStream) (throw (cant_parse_layer line)) ;;
          ret (resolve table layerId nodeId)
      | None => ret None
      end;
    let stateId := default stateId found in
    let multilayerNodeFound := bool_decide (is_Some found) in
    if isMultilayer && negb multilayerNodeFound then continue
    else assign (set_clusterIds <[stateId := moduleId]>).

Fixpoint readClu_loop (includeFlow : bool)
    (layerNodeToStateId : option (gmap N (gmap N N)))
    (lines : list string) : M unit :=
  match lines with
  | [] => ret tt
  | line :: lines' =>
      fun this =>
        match readClu_line includeFlow layerNodeToStateId line this with
        | (Normal _, this') | (Continue, this') =>
            readClu_loop includeFlow layerNodeToStateId lines' this'
        | (Break, this') => (Normal tt, this')
        | (Throw e, this') => (Throw e, this')
        end
  end.

(** The log line and the unused local [clusterData] leave no trace. *)
Definition readClu (fs : filesystem) (filename : string)
    (includeFlow : bool) (layerNodeToStateId : option (gmap N (gmap N N)))
    : M unit :=
  input ← SafeInFile fs filename;
  readClu_loop includeFlow layerNodeToStateId (getlines input).

(** ** ClusterMap::readClusterData *)

Definition unknown_extension (filename extension : string) : exn :=
  ImplementationError
    ("Input cluster data from file '" +:+ filename
     +:+ "' is of unknown extension '" +:+ extension
     +:+ "'. Must be 'clu' or 'tree'.").

Definition readClusterData (fs : filesystem) (filename : string)
    (includeFlow : bool) (layerNodeToStateId : option (gmap N (gmap N N)))
    : M unit :=
  assign (set_extension (getExtension filename)) ;;
  extension ← member m_extension;
  if String.eqb extension "tree" || String.eqb extension "ftree" then
    readTree fs filename includeFlow layerNodeToStateId
  else if String.eqb extension "clu" then
    readClu fs filename includeFlow layerNodeToStateId
  else throw (unknown_extension filename extension).

(** ** The text of a path token

    What the statements about [decodePath] say of its argument: numerals,
    each followed by one delimiter character. *)

Fixpoint all_digits (s : string) : bool :=
  match s with
  | String c s' => Char.isdigit c && all_digits s'
  | EmptyString => true
  end.

Definition numeral (ds : string) : bool := negb (is_empty ds) && all_digits ds.

Definition value (ds : string) : N := digits_val 0 ds.

Definition starts_nondigit (s : string) : bool :=
  match s with
  | String c _ => negb (Char.isdigit c)
  | EmptyString => true
  end.

(** A numeral in the range the decoder accepts and goes on from, and the
    one character after it. *)
Definition segment_ok (sg : string * ascii) : bool :=
  numeral sg.1 && (1 <=? value sg.1) && (value sg.1 <=? UINT_MAX)
  && negb (Char.isdigit sg.2).

Fixpoint render (segs : list (string * ascii)) : string :=
  match segs with
  | [] => EmptyString
  | (ds, c) :: segs' => ds +:+ String c (render segs')
  end.

(** No integer can be read here: the end of the token, or a character that
    is neither a digit nor white space nor a sign in front of a digit. *)
Definition no_integer_at (tail : string) : bool :=
  match tail with
  | EmptyString => true
  | String c r =>
      negb (Char.isdigit c) && negb (Char.isspace c)
      && (negb (Char.issign c) || starts_nondigit r)
  end.

(** ** Observers of the tree loop *)

(** The loop of [readTree] still running after [lines]: none of them ended
    it (by [break] or by an exception); the line count and the object it
    has then. *)
Fixpoint readTree_prefix (includeFlow : bool)
    (layerNodeToStateId : option (gmap N (gmap N N)))
    (lines : list string) (lineNr : N) (this : ClusterMap)
    : option (N * ClusterMap) :=
  match lines with
  | [] => Some (lineNr, this)
  | line :: lines' =>
      let lineNr := uwrap (Z.of_N lineNr + 1) in
      match readTree_line includeFlow layerNodeToStateId lineNr line this with
      | (Normal _, this') | (Continue, this') =>
          readTree_prefix includeFlow layerNodeToStateId lines' lineNr this'
      | (Break, _) | (Throw _, _) => None
      end
  end.

(** A line the tree loop treats as a record. *)
Definition is_record (line : string) : bool :=
  negb (String.length line =? 0)%nat && negb (starts_with Char.hash line)
  && negb (starts_with Char.star line).

(** After the state id of a record, is another unsigned integer read?  The
    line number only enters error messages. *)
Definition node_id_read (line : string) : option bool :=
  match readTree_fields 0 line with
  | inr f =>
      Some (negb (Stream.fail (Stream.extract_unsigned (tf_stream f)).1))
  | inl _ => None
  end.

(** A record with the trailing node id, and one that has all the fields
    before it and leaves it out. *)
Definition has_node_id (line : string) : bool :=
  is_record line && bool_decide (node_id_read line = Some true).
Definition lacks_node_id (line : string) : bool :=
  is_record line && bool_decide (node_id_read line = Some false).

(** ** Relations between the object before and after a call *)

(** [m] keeps [R]: whatever way it ends, the object it leaves is related
    to the one it was given. *)
Definition preserving {A} (R : ClusterMap -> ClusterMap -> Prop) (m : M A)
    : Prop :=
  forall this, R this (m this).2.

Definition flag_kept (this this' : ClusterMap) : Prop :=
  m_isHigherOrder this = true -> m_isHigherOrder this' = true.

(** Nothing was taken out: every state id that had a module or a flow
    still has one, and a set flag is still set. *)
Definition retains (this this' : ClusterMap) : Prop :=
  dom (m_clusterIds this) ⊆ dom (m_clusterIds this')
  /\ dom (m_flowData this) ⊆ dom (m_flowData this')
  /\ flag_kept this this'.

(** What only the tree reader writes is as it was. *)
Definition tree_state_same (this this' : ClusterMap) : Prop :=
  m_nodePaths this' = m_nodePaths this
  /\ m_isHigherOrder this' = m_isHigherOrder this.

(** The three collections are as they were. *)
Definition collections_same (this this' : ClusterMap) : Prop :=
  m_nodePaths this' = m_nodePaths this
  /\ m_clusterIds this' = m_clusterIds this
  /\ m_flowData this' = m_flowData this.

(** ** Inputs of the examples *)

Definition quoted (name : string) : string :=
  String Char.dquote name +:+ String Char.dquote EmptyString.

(** A file system with one readable file. *)
Definition single_file (name text : string) : filesystem :=
  fun f => if String.eqb f name then Some text else None.

(** The second sample line of the comment above [readTree]. *)
Definition sample_record : string := "1:1:2 0.025641 " +:+ quoted "2" +:+ " 2".

(** A record with a node id after the state id. *)
Definition higher_order_record : string :=
  "1:1:1 0.0384615 " +:+ quoted "1" +:+ " 1 7".

(** A multilayer record (node 3, layer 4) whose path has a 0. *)
Definition zero_path_multilayer : string :=
  "1:0:2 0.025641 " +:+ quoted "2" +:+ " 2 3 4".

Definition zero_path_record : string :=
  "1:0:2 0.025641 " +:+ quoted "2" +:+ " 2".

(** The name is opened and not closed. *)
Definition unclosed_name_record : string :=
  "1:1:2 0.025641 " +:+ String Char.dquote "2 2".

(** A .clu record: state 5, module 3, flow 0.1, node 10, layer 2. *)
Definition clu_record : string := "5 3 0.1 10 2".

(** An object a previous call has filled. *)
Definition used : ClusterMap :=
  mkClusterMap {[7 := 1]} {[7 := (1 # 2)%Q]} [(7, [1])] "tree" true.

(** ** What one turn of a loop can do to the object *)

(** The object after one turn of the tree loop: the flag may have been
    set, and then at most one entry was appended to the node paths, its
    path decoded from some token and, in multilayer mode, its state id
    found in the index; the flow of that state id is stored with it when,
    and only when, flows are asked for. *)
Definition tree_step (includeFlow : bool)
    (layerNodeToStateId : option (gmap N (gmap N N)))
    (this this' : ClusterMap) : Prop :=
  exists base,
    (base = this \/ base = set_isHigherOrder true this)
    /\ (this' = base
        \/ exists stateId pathString path flow,
             decodePath pathString = inr path
             /\ (forall table, layerNodeToStateId = Some table ->
                 exists layerId nodeId,
                   resolve table layerId nodeId = Some stateId)
             /\ this' =
                (if includeFlow then set_flowData <[stateId := flow]>
                 else fun x => x)
                  (set_nodePaths (fun v => (v ++ [(stateId, path)])%list)
                     base)).

(** The object after one turn of the cluster loop: a flow may have been
    stored, when flows are asked for, under a state id read from the line;
    and then at most one module was stored, in multilayer mode under a
    state id found in the index. *)
Definition clu_step (includeFlow : bool)
    (layerNodeToStateId : option (gmap N (gmap N N)))
    (this this' : ClusterMap) : Prop :=
  exists base,
    (base = this
     \/ (includeFlow = true
         /\ exists stateId flow, base = set_flowData <[stateId := flow]> this))
    /\ (this' = base
        \/ exists stateId moduleId,
             (forall table, layerNodeToStateId = Some table ->
              exists layerId nodeId,
                resolve table layerId nodeId = Some stateId)
             /\ this' = set_clusterIds <[stateId := moduleId]> base).

(** Every element of every stored path is a positive [unsigned int]. *)
Definition paths_positive (this : ClusterMap) : Prop :=
  Forall (fun entry => Forall (fun n => 1 <= n <= UINT_MAX) entry.2)
         (m_nodePaths this).

(** Every state id with a path has a flow. *)
Definition paths_have_flows (this : ClusterMap) : Prop :=
  Forall (fun entry => is_Some (m_flowData this !! entry.1))
         (m_nodePaths this).

(** The state ids the index can resolve to. *)
Definition in_index (table : gmap N (gmap N N)) (stateId : N) : Prop :=
  exists layerId nodeId, resolve table layerId nodeId = Some stateId.

(** ** Texts of well-formed input *)

Fixpoint all_space (s : string) : bool :=
  match s with
  | String c s' => Char.isspace c && all_space s'
  | EmptyString => true
  end.

(** A token: not empty, no white space in it. *)
Fixpoint no_space (s : string) : bool :=
  match s with
  | String c s' => negb (Char.isspace c) && no_space s'
  | EmptyString => true
  end.

(** A path as it is written: numerals, one delimiter after each but the
    last. *)
Definition path_text (segs : list (string * ascii)) (last : string) : string :=
  render segs +:+ last.

Definition path_value (segs : list (string * ascii)) (last : string) : Path :=
  (map (fun sg => value sg.1) segs ++ [value last])%list.

(** An integer in the range of [unsigned int], as it is written. *)
Definition uint_text (ds : string) : bool :=
  numeral ds && (value ds <=? UINT_MAX).

(** A flow written as digits, a dot and digits ([fp] may be empty). *)
Definition flow_text (ip fp : string) : string := ip +:+ String Char.dot fp.

Definition flow_value (ip fp : string) : Q :=
  decimal (Z.of_N (value (ip +:+ fp))) (- Z.of_nat (String.length fp)).

Definition flow_ok (ip fp : string) : bool :=
  numeral ip && all_digits fp
  && (String.length ip + String.length fp <=? 300)%nat.

(** The end of a number written with a dot: the end of the line, or a
    character that is no digit and no exponent letter. *)
Definition ends_flow (rest : string) : bool :=
  match rest with
  | String c _ => negb (Char.isdigit c) && negb (Char.isexp c)
  | EmptyString => true
  end.

(** Further integers of a record, a space in front of each. *)
Definition fields_text (more : list string) : string :=
  fold_right (fun n rest => String " " (n +:+ rest)) EmptyString more.

(** A record of a tree file: path, flow, quoted name, state id, and the
    further integers ([more]: none, a node id, or a node id and a layer
    id), one space between them. *)
Definition tree_record_text (path ip fp name stateId : string)
    (more : list string) : string :=
  path +:+ String " " (flow_text ip fp +:+ String " "
    (String Char.dquote (name +:+ String Char.dquote
       (String " " (stateId +:+ fields_text more))))).

(** A record of a cluster file: state id, module, and what follows them
    ([more]), one space between them. *)
Definition clu_record_text (stateId moduleId more : string) : string :=
  stateId +:+ String " " (moduleId +:+ more).

(** The flow column of a cluster record. *)
Definition flow_column (ip fp : string) : string :=
  String " " (flow_text ip fp).

(** A record of a tree file with a node id and a layer id. *)
Definition multilayer_record : string :=
  tree_record_text "1:1:1" "0" "5" "1" "1" ["3"; "4"].

(** A record whose path has a plus sign behind its delimiter. *)
Definition signed_path_record : string :=
  "1:+2 0.5 " +:+ quoted "a" +:+ " 7".

(** A line both loops pass over: an empty one or a comment. *)
Definition is_comment (line : string) : bool :=
  (String.length line =? 0)%nat || starts_with Char.hash line.

(** Two results of a loop that leave the same object and end the same
    way, but for the text of a [BadConversionError]. *)
Definition same_but_text (a b : completion unit * ClusterMap) : Prop :=
  a.2 = b.2
  /\ (a.1 = b.1
      \/ exists m m', a.1 = Throw (BadConversionError m)
                      /\ b.1 = Throw (BadConversionError m')).

(** * Properties *)

(** ** The stream model on small inputs *)

Example getlines_last_line_without_newline :
  getlines ("a" +:+ String Char.newline (String Char.newline "b"))
  = ["a"; ""; "b"].
Proof. reflexivity. Qed.

Example getlines_final_newline :
  getlines ("a" +:+ String Char.newline EmptyString) = ["a"].
Proof. reflexivity. Qed.

Example extract_unsigned_stops_at_a_colon :
  Stream.extract_unsigned (Stream.str "12:3") = (Stream.str ":3", 12).
Proof. reflexivity. Qed.

Example extract_unsigned_at_the_end_sets_eofbit :
  Stream.extract_unsigned (Stream.str " 2") = (mkStream "" true false, 2).
Proof. reflexivity. Qed.

Example extract_unsigned_minus_wraps :
  Stream.extract_unsigned (Stream.str "-2:") = (Stream.str ":", 4294967294).
Proof. reflexivity. Qed.

Example extract_unsigned_overflow_fails :
  Stream.extract_unsigned (Stream.str "4294967296:")
  = (mkStream ":" false true, UINT_MAX).
Proof. reflexivity. Qed.

Example extract_unsigned_after_eof_fails :
  Stream.fail (Stream.extract_unsigned (mkStream "" true false)).1 = true.
Proof. reflexivity. Qed.

Example extract_double_decimal :
  Stream.extract_double (Stream.str " 0.025641 x")
  = (Stream.str " x", 0.025641%Q).
Proof. vm_compute. reflexivity. Qed.

Example extract_double_exponent :
  Stream.extract_double (Stream.str "-25e-1,")
  = (Stream.str ",", (- 5 # 2)%Q).
Proof. vm_compute. reflexivity. Qed.

Example extract_double_open_exponent_fails :
  Stream.fail (Stream.extract_double (Stream.str "1e")).1 = true.
Proof. vm_compute. reflexivity. Qed.

Example extract_double_overflow_fails :
  Stream.fail (Stream.extract_double (Stream.str "1e400")).1 = true.
Proof. vm_compute. reflexivity. Qed.

Example getline_takes_the_delimiter :
  Stream.getline (Stream.str "ab:cd") ":" = (Stream.str "cd", "ab").
Proof. reflexivity. Qed.

Example getline_without_delimiter_does_not_fail :
  Stream.getline (Stream.str "abcd") ":" = (mkStream "" true false, "abcd").
Proof. reflexivity. Qed.

Example getline_on_nothing_fails :
  Stream.getline (Stream.str "") ":" = (mkStream "" true true, "").
Proof. reflexivity. Qed.

Example sample_record_fields :
  readTree_fields 1 sample_record
  = inr (mkTreeFields (mkStream "" true false) "1:1:2" 0.025641 "2" 2).
Proof. vm_compute. reflexivity. Qed.

(** ** Characters and text *)

(** Turns the comparisons of character codes into arithmetic. *)
Ltac char_arith :=
  repeat match goal with
  | |- context [N.leb ?a ?b] => destruct (N.leb_spec a b)
  | |- context [N.eqb ?a ?b] => destruct (N.eqb_spec a b)
  end; simpl; try done; try lia.

Lemma isdigit_not_space c : Char.isdigit c = true -> Char.isspace c = false.
Proof. unfold Char.isdigit, Char.isspace. char_arith. Qed.

Lemma isdigit_not_sign c :
  Char.isdigit c = true ->
  Char.eqb c Char.minus = false /\ Char.eqb c Char.plus = false.
Proof.
  unfold Char.isdigit, Char.eqb.
  change (Char.code Char.minus) with 45.
  change (Char.code Char.plus) with 43. char_arith.
Qed.

Lemma append_nil (b : string) : EmptyString +:+ b = b.
Proof. reflexivity. Qed.

Lemma append_cons c (a b : string) : String c a +:+ b = String c (a +:+ b).
Proof. reflexivity. Qed.

Lemma length_append (a b : string) :
  String.length (a +:+ b) = (String.length a + String.length b)%nat.
Proof.
  induction a as [|c a IH]; [done|].
  rewrite append_cons. simpl. by rewrite IH.
Qed.

Lemma append_assoc (a b c : string) : (a +:+ b) +:+ c = a +:+ (b +:+ c).
Proof.
  induction a as [|x a IH]; [done|].
  rewrite !append_cons. by rewrite IH.
Qed.

Lemma append_empty_r (a : string) : a +:+ EmptyString = a.
Proof. induction a as [|c a IH]; [done|]. by rewrite append_cons, IH. Qed.

Lemma span_length p s a r :
  span p s = (a, r) ->
  String.length s = (String.length a + String.length r)%nat.
Proof.
  revert a r. induction s as [|c s IH]; intros a r; simpl.
  - intros [= <- <-]. done.
  - destruct (p c).
    + destruct (span p s) as [a' r'] eqn:E. intros [= <- <-].
      simpl. by rewrite (IH a' r').
    + intros [= <- <-]. done.
Qed.

Lemma skip_ws_length s : (String.length (skip_ws s) <= String.length s)%nat.
Proof. induction s as [|c s IH]; simpl; [lia|]. destruct (Char.isspace c); simpl; lia. Qed.

Lemma take_sign_length s neg r :
  take_sign s = (neg, r) -> (String.length r <= String.length s)%nat.
Proof.
  destruct s as [|c s]; simpl.
  - intros [= <- <-]. done.
  - destruct (Char.eqb c Char.minus); [intros [= <- <-]; simpl; lia|].
    destruct (Char.eqb c Char.plus); intros [= <- <-]; simpl; lia.
Qed.

Lemma is_empty_false_length s :
  is_empty s = false -> (0 < String.length s)%nat.
Proof. destruct s; simpl; [done | lia]. Qed.

Lemma span_digits ds rest :
  all_digits ds = true -> starts_nondigit rest = true ->
  span Char.isdigit (ds +:+ rest) = (ds, rest).
Proof.
  intros Hds Hrest. induction ds as [|c ds IH].
  - rewrite append_nil. destruct rest as [|c r]; simpl in *; [done|].
    by destruct (Char.isdigit c).
  - simpl in Hds. apply andb_prop in Hds as [Hc Hds].
    rewrite append_cons. simpl. rewrite Hc, (IH Hds). done.
Qed.

(** ** Stream extraction *)

(** Reading a numeral at the head of a good stream gives its value and
    leaves what follows it. *)
Lemma extract_unsigned_numeral ds rest :
  numeral ds = true -> starts_nondigit rest = true ->
  value ds <= UINT_MAX ->
  Stream.extract_unsigned (Stream.str (ds +:+ rest))
  = (mkStream rest (is_empty rest) false, value ds).
Proof.
  intros Hnum Hrest Hle.
  apply andb_prop in Hnum as [Hne Hds].
  destruct ds as [|c ds]; [done|].
  pose proof Hds as Hds'. simpl in Hds'.
  apply andb_prop in Hds' as [Hc _].
  destruct (isdigit_not_sign c Hc) as [Hm Hp].
  unfold Stream.extract_unsigned, Stream.sentry.
  rewrite append_cons. simpl.
  rewrite (isdigit_not_space c Hc). simpl. rewrite Hm, Hp.
  rewrite <- append_cons.
  rewrite (span_digits _ _ Hds Hrest). simpl.
  change (digits_val _ ds) with (value (String c ds)).
  destruct (N.ltb_spec UINT_MAX (value (String c ds))); [lia | done].
Qed.

(** Where no integer can be read the extraction fails. *)
Lemma extract_unsigned_none tail :
  no_integer_at tail = true ->
  Stream.fail (Stream.extract_unsigned (Stream.str tail)).1 = true.
Proof.
  destruct tail as [|c r]; [done|]. simpl.
  intros H. apply andb_prop in H as [H Hsign].
  apply andb_prop in H as [Hd Hs].
  apply negb_true_iff in Hd, Hs.
  unfold Stream.extract_unsigned, Stream.sentry. simpl. rewrite Hs. simpl.
  unfold Char.issign in Hsign.
  destruct (Char.eqb c Char.minus) eqn:Em, (Char.eqb c Char.plus) eqn:Ep;
    simpl in *; try (by rewrite Hd);
    (destruct r as [|d r]; simpl in *; [done|]);
    apply negb_true_iff in Hsign; by rewrite Hsign.
Qed.

(** A successful extraction takes at least one character. *)
Lemma extract_unsigned_shortens s s' v :
  Stream.extract_unsigned s = (s', v) -> Stream.fail s' = false ->
  (String.length (rdbuf s') < String.length (rdbuf s))%nat.
Proof.
  unfold Stream.extract_unsigned, Stream.sentry.
  destruct (negb (Stream.good s)); simpl; [by intros [= <- <-]|].
  destruct (is_empty (skip_ws (rdbuf s))) eqn:Ews; simpl;
    [by intros [= <- <-]|].
  destruct (take_sign (skip_ws (rdbuf s))) as [neg b] eqn:Esign.
  destruct (span Char.isdigit b) as [ds rest] eqn:Espan.
  destruct (is_empty ds) eqn:Eds; [by intros [= <- <-]|].
  pose proof (skip_ws_length (rdbuf s)).
  pose proof (take_sign_length _ _ _ Esign).
  pose proof (span_length _ _ _ _ Espan).
  pose proof (is_empty_false_length _ Eds).
  destruct (UINT_MAX <? digits_val 0 ds); intros [= <- <-]; simpl; [done | lia].
Qed.

Lemma get_length s :
  (String.length (rdbuf (Stream.get s)) <= String.length (rdbuf s))%nat.
Proof.
  unfold Stream.get, Stream.sentry.
  destruct (negb (Stream.good s)); simpl; [done|].
  destruct (rdbuf s); simpl; lia.
Qed.

(** ** The path decoder *)

(** The loop ends before its fuel does. *)
Lemma decodePath_loop_total fuel s path :
  (String.length (rdbuf s) < fuel)%nat ->
  is_Some (decodePath_loop fuel s path).
Proof.
  revert s path. induction fuel as [|fuel IH]; intros s path Hlen; [lia|].
  simpl. destruct (Stream.extract_unsigned s) as [s' v] eqn:E.
  destruct (Stream.fail s') eqn:Ef; [by eexists|].
  destruct (v =? 0); [by eexists|].
  apply IH.
  pose proof (extract_unsigned_shortens _ _ _ E Ef).
  pose proof (get_length s'). lia.
Qed.

Lemma decodePath_total pathString :
  is_Some (decodePath_loop (S (String.length pathString))
                           (Stream.str pathString) []).
Proof. apply decodePath_loop_total. simpl. lia. Qed.

Lemma decodePath_loop_S fuel s path :
  decodePath_loop (S fuel) s path =
  let '(s', childNumber) := Stream.extract_unsigned s in
  if Stream.fail s' then Some (inr path)
  else if childNumber =? 0 then Some (inl zero_in_path)
       else decodePath_loop fuel (Stream.get s') (path ++ [childNumber])%list.
Proof. reflexivity. Qed.

Lemma render_app_cons ds c segs tail :
  render ((ds, c) :: segs) +:+ tail = ds +:+ String c (render segs +:+ tail).
Proof. simpl. by rewrite append_assoc, append_cons. Qed.

(** One turn of the loop over a well-formed segment: its value is appended
    and the stream stands after the delimiter. *)
Lemma decodePath_loop_segment fuel ds c rest path :
  segment_ok (ds, c) = true ->
  decodePath_loop (S fuel) (Stream.str (ds +:+ String c rest)) path
  = decodePath_loop fuel (Stream.str rest) (path ++ [value ds])%list.
Proof.
  intros H. unfold segment_ok in H. simpl in H.
  apply andb_prop in H as [H Hc]. apply andb_prop in H as [H Hmax].
  apply andb_prop in H as [Hnum Hmin].
  apply N.leb_le in Hmin, Hmax.
  rewrite decodePath_loop_S, extract_unsigned_numeral; [|done..].
  simpl. destruct (N.eqb_spec (value ds) 0); [lia | done].
Qed.

(** The decoder on numerals, each followed by one delimiter, and then a
    position where no integer can be read: it returns the values read so
    far, and raises nothing. *)
Lemma decodePath_loop_stops fuel segs tail path :
  forallb segment_ok segs = true -> no_integer_at tail = true ->
  (String.length (render segs +:+ tail) < fuel)%nat ->
  decodePath_loop fuel (Stream.str (render segs +:+ tail)) path
  = Some (inr (path ++ map (fun sg => value sg.1) segs)%list).
Proof.
  revert fuel path.
  induction segs as [|[ds c] segs IH]; intros fuel path Hok Htail Hlen.
  - destruct fuel as [|fuel]; [lia|].
    rewrite decodePath_loop_S. simpl render. rewrite append_nil.
    pose proof (extract_unsigned_none tail Htail) as Hf.
    destruct (Stream.extract_unsigned (Stream.str tail)) as [s' v].
    simpl in Hf. rewrite Hf. by rewrite app_nil_r.
  - simpl in Hok. apply andb_prop in Hok as [Hsg Hok].
    rewrite render_app_cons in *.
    destruct fuel as [|fuel]; [lia|].
    rewrite (decodePath_loop_segment _ _ _ _ _ Hsg).
    rewrite length_append in Hlen. simpl in Hlen.
    rewrite IH; [|done|done|lia].
    simpl. by rewrite <- app_assoc.
Qed.

(** The decoder on numerals, each followed by one delimiter, and then a
    numeral of value 0: it raises the error of line 121. *)
Lemma decodePath_loop_zero fuel segs zs suf path :
  forallb segment_ok segs = true ->
  numeral zs = true -> value zs = 0 -> starts_nondigit suf = true ->
  (String.length (render segs +:+ zs +:+ suf) < fuel)%nat ->
  decodePath_loop fuel (Stream.str (render segs +:+ zs +:+ suf)) path
  = Some (inl zero_in_path).
Proof.
  revert fuel path.
  induction segs as [|[ds c] segs IH]; intros fuel path Hok Hzs Hz Hsuf Hlen.
  - destruct fuel as [|fuel]; [lia|].
    rewrite decodePath_loop_S. simpl render. rewrite append_nil.
    rewrite extract_unsigned_numeral; [|done|done|rewrite Hz; done].
    simpl. by rewrite Hz.
  - simpl in Hok. apply andb_prop in Hok as [Hsg Hok].
    rewrite render_app_cons in *.
    destruct fuel as [|fuel]; [lia|].
    rewrite (decodePath_loop_segment _ _ _ _ _ Hsg).
    rewrite length_append in Hlen. simpl in Hlen.
    apply IH; [done..|lia].
Qed.

Lemma decodePath_stops segs tail :
  forallb segment_ok segs = true -> no_integer_at tail = true ->
  decodePath (render segs +:+ tail) = inr (map (fun sg => value sg.1) segs).
Proof.
  intros Hok Htail. unfold decodePath.
  rewrite decodePath_loop_stops; [done..|lia].
Qed.

Lemma decodePath_zero segs zs suf :
  forallb segment_ok segs = true ->
  numeral zs = true -> value zs = 0 -> starts_nondigit suf = true ->
  decodePath (render segs +:+ zs +:+ suf) = inl zero_in_path.
Proof.
  intros Hok Hzs Hz Hsuf. unfold decodePath.
  rewrite decodePath_loop_zero; [done..|lia].
Qed.

(** ** What a call leaves in place

    Relations between the object before and after a piece of code, closed
    under the monad's operations. *)

Section Preserving.

Variable R : ClusterMap -> ClusterMap -> Prop.
Hypothesis R_refl : forall x, R x x.
Hypothesis R_trans : forall x y z, R x y -> R y z -> R x z.

#[local] Abbreviation preserving := (preserving R).

Lemma preserving_ret {A} (a : A) : preserving (mret a).
Proof. intros this. apply R_refl. Qed.

Lemma preserving_throw {A} e : preserving (@throw A e).
Proof. intros this. apply R_refl. Qed.

Lemma preserving_continue {A} : preserving (@continue A).
Proof. intros this. apply R_refl. Qed.

Lemma preserving_break {A} : preserving (@break A).
Proof. intros this. apply R_refl. Qed.

Lemma preserving_member {A} (f : ClusterMap -> A) : preserving (member f).
Proof. intros this. apply R_refl. Qed.

Lemma preserving_lift {A} (r : exn + A) : preserving (lift r).
Proof. destruct r; intros this; apply R_refl. Qed.

Lemma preserving_assign f : (forall x, R x (f x)) -> preserving (assign f).
Proof. intros Hf this. apply Hf. Qed.

Lemma preserving_bind {A B} (m : M A) (k : A -> M B) :
  preserving m -> (forall a, preserving (k a)) -> preserving (m ≫= k).
Proof.
  intros Hm Hk this. unfold mbind, M_bind, bind.
  specialize (Hm this). destruct (m this) as [[a| | |e] this']; simpl in *;
    try done.
  eapply R_trans; [exact Hm | apply Hk].
Qed.

Lemma preserving_when b m : preserving m -> preserving (when b m).
Proof. destruct b; [done | intros _; apply preserving_ret]. Qed.

Lemma preserving_SafeInFile fs filename : preserving (SafeInFile fs filename).
Proof.
  unfold SafeInFile. destruct (fs filename);
    [apply (preserving_ret s) | apply preserving_throw].
Qed.

(** Takes a computation apart along the monad's operations. *)
Ltac preserve :=
  repeat first
    [ apply preserving_ret | apply preserving_throw
    | apply preserving_continue | apply preserving_break
    | apply preserving_member | apply preserving_lift
    | apply preserving_SafeInFile
    | apply preserving_when
    | apply preserving_bind; [|intros ?]
    | match goal with
      | |- preserving (if ?b then _ else _) => destruct b
      | |- preserving (let '(_, _) := ?p in _) => destruct p
      | |- preserving (match ?o with Some _ => _ | None => _ end) =>
          destruct o
      end ].

Hypothesis R_flow : forall x k v, R x (set_flowData <[k := v]> x).

Section Tree.

Hypothesis R_flag : forall x, R x (set_isHigherOrder true x).
Hypothesis R_paths : forall x f, R x (set_nodePaths f x).

Lemma preserving_readTree_line includeFlow table lineNr line :
  preserving (readTree_line includeFlow table lineNr line).
Proof.
  unfold readTree_line, readTree_record, readTree_ids. cbv zeta.
  preserve; apply preserving_assign; auto.
Qed.

Lemma preserving_readTree_loop includeFlow table lines lineNr :
  preserving (readTree_loop includeFlow table lines lineNr).
Proof.
  revert lineNr. induction lines as [|line lines IH]; intros lineNr this.
  - apply R_refl.
  - simpl.
    pose proof (preserving_readTree_line includeFlow table
                  (uwrap (Z.of_N lineNr + 1)) line this) as Hl.
    destruct (readTree_line _ _ _ _ this) as [[[]| | |e] this'];
      simpl in *; try done;
      (eapply R_trans; [exact Hl | apply IH]).
Qed.

Lemma preserving_readTree fs filename includeFlow table :
  preserving (readTree fs filename includeFlow table).
Proof.
  unfold readTree. preserve;
    [apply preserving_assign; auto | apply preserving_readTree_loop].
Qed.

End Tree.

Section Clu.

Hypothesis R_ids : forall x k v, R x (set_clusterIds <[k := v]> x).

Lemma preserving_readClu_line includeFlow table line :
  preserving (readClu_line includeFlow table line).
Proof.
  unfold readClu_line. cbv zeta. preserve; apply preserving_assign; auto.
Qed.

Lemma preserving_readClu_loop includeFlow table lines :
  preserving (readClu_loop includeFlow table lines).
Proof.
  induction lines as [|line lines IH]; intros this.
  - apply R_refl.
  - simpl.
    pose proof (preserving_readClu_line includeFlow table line this) as Hl.
    destruct (readClu_line _ _ _ this) as [[[]| | |e] this'];
      simpl in *; try done;
      (eapply R_trans; [exact Hl | apply IH]).
Qed.

Lemma preserving_readClu fs filename includeFlow table :
  preserving (readClu fs filename includeFlow table).
Proof. unfold readClu. preserve. apply preserving_readClu_loop. Qed.

End Clu.

End Preserving.

(** ** The loops *)

Ltac run_monad :=
  unfold mbind, M_bind, mret, M_ret, lift, when, bind, ret, throw, continue,
    break, assign, member in *.

Lemma readTree_loop_cons includeFlow table line lines lineNr this :
  readTree_loop includeFlow table (line :: lines) lineNr this =
  match readTree_line includeFlow table (uwrap (Z.of_N lineNr + 1)) line this
  with
  | (Normal _, this') | (Continue, this') =>
      readTree_loop includeFlow table lines (uwrap (Z.of_N lineNr + 1)) this'
  | (Break, this') => (Normal tt, this')
  | (Throw e, this') => (Throw e, this')
  end.
Proof. reflexivity. Qed.

Lemma readClu_loop_cons includeFlow table line lines this :
  readClu_loop includeFlow table (line :: lines) this =
  match readClu_line includeFlow table line this with
  | (Normal _, this') | (Continue, this') =>
      readClu_loop includeFlow table lines this'
  | (Break, this') => (Normal tt, this')
  | (Throw e, this') => (Throw e, this')
  end.
Proof. reflexivity. Qed.

(** The tree loop on a line that begins with a star. *)
Lemma readTree_line_star includeFlow table lineNr s this :
  readTree_line includeFlow table lineNr (String Char.star s) this
  = (Break, this).
Proof. reflexivity. Qed.

(** The cluster loop on a line that begins with a star. *)
Lemma readClu_line_star includeFlow table s this :
  readClu_line includeFlow table (String Char.star s) this
  = (Continue, this).
Proof. reflexivity. Qed.

(** Once the lines of a running prefix are done the loop goes on with the
    rest. *)
Lemma readTree_loop_app includeFlow table pre rest lineNr this lineNr' this' :
  readTree_prefix includeFlow table pre lineNr this = Some (lineNr', this') ->
  readTree_loop includeFlow table (pre ++ rest)%list lineNr this
  = readTree_loop includeFlow table rest lineNr' this'.
Proof.
  revert lineNr this. induction pre as [|l pre IH]; intros lineNr this.
  - intros [= <- <-]. done.
  - simpl app. rewrite readTree_loop_cons. simpl readTree_prefix.
    destruct (readTree_line _ _ _ _ this) as [[[]| | |e] this1];
      try done; apply IH.
Qed.

Lemma readTree_loop_star includeFlow table pre s post lineNr this :
  readTree_loop includeFlow table (pre ++ String Char.star s :: post)%list
    lineNr this
  = readTree_loop includeFlow table pre lineNr this.
Proof.
  revert lineNr this. induction pre as [|l pre IH]; intros lineNr this.
  - simpl app. rewrite readTree_loop_cons, readTree_line_star. done.
  - simpl app. rewrite !readTree_loop_cons.
    destruct (readTree_line _ _ _ _ this) as [[[]| | |e] this1];
      try done; apply IH.
Qed.

Lemma readClu_loop_star includeFlow table pre s post this :
  readClu_loop includeFlow table (pre ++ String Char.star s :: post)%list this
  = readClu_loop includeFlow table (pre ++ post)%list this.
Proof.
  revert this. induction pre as [|l pre IH]; intros this.
  - simpl app. rewrite readClu_loop_cons, readClu_line_star. done.
  - simpl app. rewrite !readClu_loop_cons.
    destruct (readClu_line _ _ _ this) as [[[]| | |e] this1];
      try done; apply IH.
Qed.

Lemma readTree_prefix_loop includeFlow table pre lineNr this lineNr' this' :
  readTree_prefix includeFlow table pre lineNr this = Some (lineNr', this') ->
  readTree_loop includeFlow table pre lineNr this = (Normal tt, this').
Proof.
  intros H.
  rewrite <- (app_nil_r pre), (readTree_loop_app _ _ _ _ _ _ _ _ H). done.
Qed.

(** ** Higher-order mode *)

Lemma readTree_line_record includeFlow table lineNr line :
  is_record line = true ->
  readTree_line includeFlow table lineNr line
  = readTree_record includeFlow table lineNr line.
Proof.
  unfold is_record, readTree_line. intros H.
  apply andb_prop in H as [H Hstar]. apply andb_prop in H as [Hlen Hhash].
  apply negb_true_iff in Hstar, Hlen, Hhash.
  by rewrite Hlen, Hhash, Hstar.
Qed.

(** The line number enters the error messages only. *)
Lemma readTree_fields_lineNr n n' line f :
  readTree_fields n line = inr f -> readTree_fields n' line = inr f.
Proof.
  unfold readTree_fields.
  repeat match goal with
  | |- context [let '(_, _) := ?p in _] => destruct p
  | |- context [if ?b then _ else _] => destruct b
  end; done.
Qed.

Lemma node_id_read_fields line b lineNr :
  node_id_read line = Some b ->
  exists f, readTree_fields lineNr line = inr f
    /\ Stream.fail (Stream.extract_unsigned (tf_stream f)).1 = negb b.
Proof.
  unfold node_id_read.
  destruct (readTree_fields 0 line) as [e|f] eqn:E; [done|].
  intros [= <-]. exists f. split.
  - by apply (readTree_fields_lineNr 0).
  - by rewrite negb_involutive.
Qed.

(** A record with a node id leaves the flag set, however the rest of the
    record fares. *)
Lemma has_node_id_sets_flag includeFlow table lineNr line this :
  has_node_id line = true ->
  m_isHigherOrder (readTree_line includeFlow table lineNr line this).2 = true.
Proof.
  unfold has_node_id. intros H. apply andb_prop in H as [Hrec H].
  apply bool_decide_eq_true in H.
  destruct (node_id_read_fields _ _ lineNr H) as (f & Hf & Hfail).
  rewrite (readTree_line_record _ _ _ _ Hrec).
  unfold readTree_record, readTree_ids. run_monad. rewrite Hf. cbv beta iota.
  destruct (Stream.extract_unsigned (tf_stream f)) as [s1 nodeId].
  simpl in Hfail. rewrite Hfail. simpl.
  destruct table as [table|]; simpl.
  - destruct (Stream.extract_unsigned s1) as [s2 layerId].
    destruct (Stream.fail s2); simpl; [done|].
    destruct (resolve table layerId nodeId); simpl; [|done].
    destruct (decodePath (tf_pathString f)); simpl; [done|].
    by destruct includeFlow.
  - destruct (decodePath (tf_pathString f)); simpl; [done|].
    by destruct includeFlow.
Qed.

(** A record without a node id, met with the flag set, is refused. *)
Lemma lacks_node_id_refused includeFlow table lineNr line this :
  lacks_node_id line = true -> m_isHigherOrder this = true ->
  readTree_line includeFlow table lineNr line this
  = (Throw (missing_state_id line), this).
Proof.
  unfold lacks_node_id. intros H Hflag. apply andb_prop in H as [Hrec H].
  apply bool_decide_eq_true in H.
  destruct (node_id_read_fields _ _ lineNr H) as (f & Hf & Hfail).
  rewrite (readTree_line_record _ _ _ _ Hrec).
  unfold readTree_record, readTree_ids. run_monad. rewrite Hf. cbv beta iota.
  destruct (Stream.extract_unsigned (tf_stream f)) as [s1 nodeId].
  simpl in Hfail. rewrite Hfail. simpl. by rewrite Hflag.
Qed.

(** No line clears the flag. *)
Lemma readTree_line_keeps_flag includeFlow table lineNr line this :
  flag_kept this (readTree_line includeFlow table lineNr line this).2.
Proof.
  apply (preserving_readTree_line flag_kept); unfold flag_kept; auto.
Qed.

Lemma readTree_prefix_keeps_flag includeFlow table lines lineNr this n' this' :
  readTree_prefix includeFlow table lines lineNr this = Some (n', this') ->
  flag_kept this this'.
Proof.
  revert lineNr this. induction lines as [|l lines IH]; intros lineNr this.
  - intros [= <- <-]. by intros ?.
  - simpl.
    pose proof (readTree_line_keeps_flag includeFlow table
                  (uwrap (Z.of_N lineNr + 1)) l this) as Hl.
    destruct (readTree_line _ _ _ _ this) as [[[]| | |e] this1];
      simpl in *; try done;
      intros H Hflag; apply (IH _ _ H), Hl, Hflag.
Qed.

(** ** What the readers leave in place *)

Lemma flag_kept_refl x : flag_kept x x.
Proof. by intros ?. Qed.

Lemma flag_kept_trans x y z : flag_kept x y -> flag_kept y z -> flag_kept x z.
Proof. unfold flag_kept. auto. Qed.

Lemma retains_refl x : retains x x.
Proof. split_and!; [done | done | by intros ?]. Qed.

Lemma retains_trans x y z : retains x y -> retains y z -> retains x z.
Proof.
  intros (Hc & Hf & Hh) (Hc' & Hf' & Hh'). split_and!.
  - by etrans.
  - by etrans.
  - by eapply flag_kept_trans.
Qed.

Lemma retains_flow x k v : retains x (set_flowData <[k := v]> x).
Proof.
  split_and!; simpl; [done | apply dom_insert_subseteq | by intros ?].
Qed.

Lemma retains_ids x k v : retains x (set_clusterIds <[k := v]> x).
Proof.
  split_and!; simpl; [apply dom_insert_subseteq | done | by intros ?].
Qed.

Lemma retains_flag x : retains x (set_isHigherOrder true x).
Proof. split_and!; simpl; [done | done | by intros ?]. Qed.

Lemma retains_paths x f : retains x (set_nodePaths f x).
Proof. split_and!; simpl; [done | done | by intros ?]. Qed.

Lemma retains_extension x e : retains x (set_extension e x).
Proof. split_and!; simpl; [done | done | by intros ?]. Qed.

Lemma tree_state_same_trans x y z :
  tree_state_same x y -> tree_state_same y z -> tree_state_same x z.
Proof. intros [H1 H2] [H3 H4]. split; congruence. Qed.

(** Neither reader takes a state id out of [m_clusterIds] or [m_flowData]
    or clears the flag. *)
Lemma readTree_retains fs filename includeFlow table this :
  retains this (readTree fs filename includeFlow table this).2.
Proof.
  exact (preserving_readTree retains retains_refl retains_trans retains_flow
           retains_flag retains_paths fs filename includeFlow table this).
Qed.

Lemma readClu_retains fs filename includeFlow table this :
  retains this (readClu fs filename includeFlow table this).2.
Proof.
  exact (preserving_readClu retains retains_refl retains_trans retains_flow
           retains_ids fs filename includeFlow table this).
Qed.

(** The cluster reader writes neither [m_nodePaths] nor the flag. *)
Lemma readClu_tree_state fs filename includeFlow table this :
  tree_state_same this (readClu fs filename includeFlow table this).2.
Proof.
  apply (preserving_readClu tree_state_same);
    [by intros ? | apply tree_state_same_trans | by intros | by intros].
Qed.

(** How [readClusterData] runs, by the extension of the file name. *)
Lemma readClusterData_run fs filename includeFlow table this :
  readClusterData fs filename includeFlow table this =
  let extension := getExtension filename in
  let this0 := set_extension extension this in
  if String.eqb extension "tree" || String.eqb extension "ftree" then
    readTree fs filename includeFlow table this0
  else if String.eqb extension "clu" then
    readClu fs filename includeFlow table this0
  else (Throw (unknown_extension filename extension), this0).
Proof.
  unfold readClusterData. run_monad. simpl.
  destruct (_ || _); [done|]. by destruct (String.eqb _ "clu").
Qed.

Lemma readClusterData_retains fs filename includeFlow table this :
  retains this (readClusterData fs filename includeFlow table this).2.
Proof.
  rewrite readClusterData_run. cbv zeta.
  apply (retains_trans _ (set_extension (getExtension filename) this));
    [apply retains_extension|].
  destruct (_ || _); [apply readTree_retains|].
  destruct (String.eqb _ "clu"); [apply readClu_retains | apply retains_refl].
Qed.

(** A line the tree loop passes over with [continue] has added nothing to
    the collections. *)
Lemma readTree_line_continue includeFlow table lineNr line this this' :
  readTree_line includeFlow table lineNr line this = (Continue, this') ->
  collections_same this this'.
Proof.
  unfold readTree_line.
  destruct (String.length line =? 0)%nat; [by intros [= <-]|].
  destruct (starts_with Char.hash line); [by intros [= <-]|].
  destruct (starts_with Char.star line); [done|].
  unfold readTree_record, readTree_ids. run_monad.
  destruct (readTree_fields lineNr line) as [e|f]; [done|]. cbv beta iota.
  destruct (Stream.extract_unsigned (tf_stream f)) as [s1 nodeId].
  destruct (Stream.fail s1); simpl.
  - destruct (m_isHigherOrder this); [done|].
    destruct table as [table|]; simpl.
    + destruct (Stream.extract_unsigned s1) as [s2 layerId].
      destruct (Stream.fail s2); simpl; [done|].
      destruct (resolve table layerId nodeId); simpl; [|by intros [= <-]].
      destruct (decodePath (tf_pathString f)); simpl; [done|].
      by destruct includeFlow.
    + destruct (decodePath (tf_pathString f)); simpl; [done|].
      by destruct includeFlow.
  - destruct table as [table|]; simpl.
    + destruct (Stream.extract_unsigned s1) as [s2 layerId].
      destruct (Stream.fail s2); simpl; [done|].
      destruct (resolve table layerId nodeId); simpl; [|by intros [= <-]].
      destruct (decodePath (tf_pathString f)); simpl; [done|].
      by destruct includeFlow.
    + destruct (decodePath (tf_pathString f)); simpl; [done|].
      by destruct includeFlow.
Qed.

(** ** The extension of a file name *)

Lemma after_last_dot_suffix base e :
  after_last_dot e = None ->
  after_last_dot (base +:+ String Char.dot e) = Some e.
Proof.
  intros He. induction base as [|c base IH].
  - rewrite append_nil. simpl. by rewrite He.
  - rewrite append_cons. simpl. by rewrite IH.
Qed.

Lemma getExtension_suffix base e :
  after_last_dot e = None -> getExtension (base +:+ String Char.dot e) = e.
Proof. intros He. unfold getExtension. by rewrite after_last_dot_suffix. Qed.

(** ** The quoted name *)

Lemma split_at_first delim a rest :
  has_char delim a = false ->
  split_at delim (a +:+ String delim rest) = Some (a, rest).
Proof.
  intros Ha. induction a as [|c a IH].
  - rewrite append_nil. simpl. unfold Char.eqb. by rewrite N.eqb_refl.
  - simpl in Ha. apply orb_false_iff in Ha as [Hc Ha].
    rewrite append_cons. simpl. by rewrite Hc, IH.
Qed.

(** With both quotes there, the two [getline] calls of lines 80 and 82
    leave in [name] the text strictly between them. *)
Lemma name_between_quotes before name rest :
  has_char Char.dquote before = false ->
  has_char Char.dquote name = false ->
  let text := before +:+ String Char.dquote (name +:+ String Char.dquote rest)
  in
  Stream.getline (Stream.getline (Stream.str text) Char.dquote).1 Char.dquote
  = (Stream.str rest, name).
Proof.
  intros Hb Hn. unfold Stream.getline at 2. simpl.
  rewrite (split_at_first _ _ _ Hb). simpl.
  unfold Stream.getline. simpl. by rewrite (split_at_first _ _ _ Hn).
Qed.

(** ** The sample record *)

Lemma readTree_run fs filename text includeFlow table this :
  fs filename = Some text ->
  readTree fs filename includeFlow table this
  = readTree_loop includeFlow table (getlines text) 0
      (set_nodePaths (fun _ => []) this).
Proof. intros H. unfold readTree, SafeInFile. rewrite H. reflexivity. Qed.

Lemma sample_record_run ids flows paths extension :
  readTree_loop true None (getlines sample_record) 0
    (mkClusterMap ids flows paths extension false)
  = (Normal tt,
     mkClusterMap ids (<[2 := 0.025641%Q]> flows)
                  (paths ++ [(2, [1; 1; 2])])%list extension false).
Proof. vm_compute. reflexivity. Qed.

(** * The claims *)

(** ** Multilayer records of the cluster format *)

(** C1.  The code at the record [5 3 0.1 10 2], read with flows and an
    index that maps node 10 of layer 2 to state 42: the module goes under
    the resolved state id 42, the flow under the state id 5 of the line,
    which line 161 stores before the lookup of lines 173-181; no flow is
    stored under 42. *)
Theorem clu_flow_is_keyed_by_the_state_id_of_the_line :
  let result :=
    readClusterData (single_file "p.clu" clu_record) "p.clu" true
      (Some {[2 := {[10 := 42]}]}) fresh in
  result.1 = Normal tt
  /\ m_clusterIds result.2 !! 42 = Some 3
  /\ m_flowData result.2 !! 5 = Some 0.1%Q
  /\ m_flowData result.2 !! 42 = None.
Proof. vm_compute. done. Qed.

(** C2.  The code at the same record and an index without node 10 in
    layer 2: the record is passed over without an error and without a
    module, and its flow is in [m_flowData] all the same.  The tree reader
    does pass over such a record without a trace
    ([readTree_line_continue]). *)
Theorem clu_skipped_record_leaves_its_flow :
  readClusterData (single_file "p.clu" clu_record) "p.clu" true
    (Some {[2 := {[11 := 42]}]}) fresh
  = (Normal tt, mkClusterMap ∅ {[5 := 0.1%Q]} [] "clu" false).
Proof. vm_compute. reflexivity. Qed.

(** ** What a call resets *)

(** C3, as stated, fails.  On an object a previous call has filled, a
    .clu file that mentions state 1 only leaves the module and the flow of
    state 7, the node paths and the flag as they were; and the sample
    record, which a fresh object reads, is refused because of the flag the
    previous call left set. *)
Lemma parse_call_merges_with_previous_state :
  (let this' :=
     (readClusterData (single_file "p.clu" "1 2") "p.clu" true None used).2
   in
   m_clusterIds this' !! 7 = Some 1
   /\ m_flowData this' !! 7 = Some (1 # 2)%Q
   /\ m_nodePaths this' = [(7, [1])]
   /\ m_isHigherOrder this' = true)
  /\ (readClusterData (single_file "p.tree" sample_record) "p.tree" true
        None fresh).1 = Normal tt
  /\ (readClusterData (single_file "p.tree" sample_record) "p.tree" true
        None used).1 = Throw (missing_state_id sample_record).
Proof. vm_compute. done. Qed.

(** C3, amended.  A call resets nothing but [m_nodePaths], and that in the
    tree reader only, once the file is open: the tree reader gives the same
    result whatever node paths the object held.  Every state id that had a
    module or a flow before the call has one after it, a flag that was set
    is still set, and a call on a .clu file leaves the node paths and the
    flag as they were. *)
Theorem parse_call_resets_only_the_node_paths_of_a_tree
    fs filename includeFlow table this :
  let this' := (readClusterData fs filename includeFlow table this).2 in
  retains this this'
  /\ (getExtension filename = "clu" -> tree_state_same this this')
  /\ (forall paths, is_Some (fs filename) ->
      readTree fs filename includeFlow table (set_nodePaths (fun _ => paths) this)
      = readTree fs filename includeFlow table this).
Proof.
  split_and!.
  - apply readClusterData_retains.
  - intros Hext. rewrite readClusterData_run, Hext. simpl.
    destruct (readClu_tree_state fs filename includeFlow table
                (set_extension "clu" this)) as [Hp Hf].
    split; [by rewrite Hp | by rewrite Hf].
  - intros paths [text Htext]. unfold readTree, SafeInFile.
    rewrite Htext. reflexivity.
Qed.

Lemma parse_call_resets_only_the_node_paths_of_a_tree_witness :
  getExtension "p.clu" = "clu"
  /\ is_Some (single_file "p.tree" sample_record "p.tree")
  /\ tree_state_same used
       (readClusterData (single_file "p.clu" "1 2") "p.clu" true None used).2
  /\ readTree (single_file "p.tree" sample_record) "p.tree" true None
       (set_nodePaths (fun _ => [(7, [1])]) fresh)
     = readTree (single_file "p.tree" sample_record) "p.tree" true None fresh.
Proof.
  split; [reflexivity|]. split; [by eexists|]. split.
  - apply (parse_call_resets_only_the_node_paths_of_a_tree
             (single_file "p.clu" "1 2") "p.clu" true None used).
    reflexivity.
  - apply (parse_call_resets_only_the_node_paths_of_a_tree
             (single_file "p.tree" sample_record) "p.tree" true None fresh).
    by eexists.
Defined.

(** ** The dispatcher *)

(** Neither reader writes [m_extension]. *)
Lemma readTree_extension fs filename includeFlow table this :
  m_extension (readTree fs filename includeFlow table this).2
  = m_extension this.
Proof.
  apply (preserving_readTree (fun x y => m_extension y = m_extension x));
    [done | intros x y z H1 H2; congruence | done..].
Qed.

Lemma readClu_extension fs filename includeFlow table this :
  m_extension (readClu fs filename includeFlow table this).2
  = m_extension this.
Proof.
  apply (preserving_readClu (fun x y => m_extension y = m_extension x));
    [done | intros x y z H1 H2; congruence | done..].
Qed.

(** C4.  The extension is the text after the last dot of the path, and
    it is what [m_extension] holds after the call, however the call ends;
    tree and ftree go to the tree reader, clu to the cluster reader, and
    any other extension raises the ImplementationError whose text names
    the file and the extension, whatever the files hold: no file is
    opened and no collection is touched. *)
Theorem readClusterData_dispatches_on_the_extension
    fs filename includeFlow table this :
  let extension := getExtension filename in
  let this0 := set_extension extension this in
  (forall base e, filename = base +:+ String Char.dot e ->
                  after_last_dot e = None -> extension = e)
  /\ m_extension (readClusterData fs filename includeFlow table this).2
     = extension
  /\ (extension = "tree" \/ extension = "ftree" ->
      readClusterData fs filename includeFlow table this
      = readTree fs filename includeFlow table this0)
  /\ (extension = "clu" ->
      readClusterData fs filename includeFlow table this
      = readClu fs filename includeFlow table this0)
  /\ (extension <> "tree" -> extension <> "ftree" -> extension <> "clu" ->
      forall fs',
        readClusterData fs' filename includeFlow table this
        = (Throw
             (ImplementationError
                ("Input cluster data from file '" +:+ filename
                 +:+ "' is of unknown extension '" +:+ extension
                 +:+ "'. Must be 'clu' or 'tree'.")),
           this0)).
Proof.
  cbv zeta. split_and!.
  - intros base e -> He. by apply getExtension_suffix.
  - rewrite readClusterData_run. cbv zeta.
    destruct (_ || _); [by rewrite readTree_extension|].
    destruct (String.eqb _ "clu"); [by rewrite readClu_extension | done].
  - intros [H|H]; rewrite readClusterData_run, H; reflexivity.
  - intros H. rewrite readClusterData_run, H. reflexivity.
  - intros Ht Hf Hc fs'. rewrite readClusterData_run. cbv zeta.
    apply String.eqb_neq in Ht, Hf, Hc. by rewrite Ht, Hf, Hc.
Qed.

Lemma readClusterData_dispatches_on_the_extension_witness :
  getExtension "dir.v2/part.csv" = "csv"
  /\ readClusterData (single_file "part.csv" sample_record) "part.csv" true
       None fresh
     = (Throw
          (ImplementationError
             "Input cluster data from file 'part.csv' is of unknown extension 'csv'. Must be 'clu' or 'tree'."),
        set_extension "csv" fresh)
  /\ readClusterData (single_file "part.ftree" sample_record) "part.ftree"
       true None fresh
     = readTree (single_file "part.ftree" sample_record) "part.ftree" true
         None (set_extension "ftree" fresh)
  /\ readClusterData (single_file "part.clu" clu_record) "part.clu" true
       None fresh
     = readClu (single_file "part.clu" clu_record) "part.clu" true None
         (set_extension "clu" fresh).
Proof.
  split_and!.
  - apply (proj1 (readClusterData_dispatches_on_the_extension
                    (single_file "part.csv" sample_record) "dir.v2/part.csv"
                    true None fresh) "dir.v2/part" "csv"); reflexivity.
  - apply (readClusterData_dispatches_on_the_extension
             (single_file "part.csv" sample_record) "part.csv" true None
             fresh); discriminate.
  - apply (readClusterData_dispatches_on_the_extension
             (single_file "part.ftree" sample_record) "part.ftree" true None
             fresh). right. reflexivity.
  - apply (readClusterData_dispatches_on_the_extension
             (single_file "part.clu" clu_record) "part.clu" true None fresh).
    reflexivity.
Defined.

(** ** Higher-order mode *)

(** C5.  In one run of the tree loop: after a record that has a node id
    behind its state id the flag is set and stays set over the lines that
    follow, whatever they are, as long as the loop runs; the next record
    that has its fields up to the state id and no node id then ends the
    parse with the error of line 89, in single-layer and in multilayer
    mode. *)
Theorem higher_order_mode_is_sticky
    includeFlow table first between second rest lineNr this lineNr' this' :
  has_node_id first = true ->
  lacks_node_id second = true ->
  readTree_prefix includeFlow table (first :: between) lineNr this
  = Some (lineNr', this') ->
  m_isHigherOrder this' = true
  /\ readTree_loop includeFlow table
       (first :: between ++ second :: rest)%list lineNr this
     = (Throw (missing_state_id second), this').
Proof.
  intros Hfirst Hsecond Hrun.
  assert (m_isHigherOrder this' = true) as Hflag.
  { simpl in Hrun.
    pose proof (has_node_id_sets_flag includeFlow table
                  (uwrap (Z.of_N lineNr + 1)) first this Hfirst) as H1.
    destruct (readTree_line _ _ _ first this) as [[[]| | |e] this1];
      simpl in *; try done;
      exact (readTree_prefix_keeps_flag _ _ _ _ _ _ _ Hrun H1). }
  split; [done|].
  rewrite app_comm_cons.
  rewrite (readTree_loop_app includeFlow table (first :: between)
             (second :: rest) _ _ _ _ Hrun).
  rewrite readTree_loop_cons.
  by rewrite (lacks_node_id_refused _ _ _ _ _ Hsecond Hflag).
Qed.

Lemma higher_order_mode_is_sticky_witness :
  m_isHigherOrder
    (set_flowData <[1 := Qred 0.0384615]>
       (set_nodePaths (fun _ => [(1, [1; 1; 1])])
          (set_isHigherOrder true fresh))) = true
  /\ readTree_loop true None
       (higher_order_record :: [] ++ sample_record :: ["not read"])%list
       0 fresh
     = (Throw (missing_state_id sample_record),
        set_flowData <[1 := Qred 0.0384615]>
          (set_nodePaths (fun _ => [(1, [1; 1; 1])])
             (set_isHigherOrder true fresh))).
Proof.
  apply (higher_order_mode_is_sticky true None higher_order_record []
           sample_record ["not read"] 0 fresh 1);
    vm_compute; reflexivity.
Defined.

(** ** Path elements *)

(** C6, as stated, fails in multilayer mode.  The record
    [zero_path_multilayer] names node 3 of layer 4; with an index that
    does not hold that pair the loop passes over it (line 110) before the
    path is decoded, and the parse ends without an error. *)
Lemma zero_path_of_a_skipped_record_is_not_an_error :
  readTree (single_file "p.tree" zero_path_multilayer) "p.tree" true
    (Some {[2 := {[10 := 42]}]}) fresh
  = (Normal tt, set_isHigherOrder true fresh).
Proof. vm_compute. reflexivity. Qed.

(** C6, amended.  Take a record whose fields and ids are read without an
    error, and whose path token is made of integers from 1 to [UINT_MAX],
    each followed by one delimiter, and then an integer 0 (as in 1:0:2).
    In multilayer mode with the (layer, node) pair missing from the index
    the record is passed over; in every other case, single-layer or
    multilayer, the parse ends with the error of line 121. *)
Theorem zero_path_element_is_rejected_unless_skipped
    includeFlow table lineNr line this f ids this1 segs zeros suffix :
  is_record line = true ->
  readTree_fields lineNr line = inr f ->
  readTree_ids table line f this = (Normal ids, this1) ->
  tf_pathString f = render segs +:+ zeros +:+ suffix ->
  forallb segment_ok segs = true ->
  numeral zeros = true -> value zeros = 0 ->
  starts_nondigit suffix = true ->
  readTree_line includeFlow table lineNr line this
  = if bool_decide (is_Some table) && negb ids.2 then (Continue, this1)
    else (Throw zero_in_path, this1).
Proof.
  intros Hrec Hf Hids Hpath Hsegs Hnum Hzero Hsuffix.
  rewrite (readTree_line_record _ _ _ _ Hrec).
  unfold readTree_record. run_monad. rewrite Hf. cbv beta iota.
  rewrite Hids. destruct ids as [stateId found]. simpl.
  destruct (bool_decide (is_Some table) && negb found); [done|].
  by rewrite Hpath, (decodePath_zero _ _ _ Hsegs Hnum Hzero Hsuffix).
Qed.

Lemma zero_path_element_is_rejected_unless_skipped_witness :
  readTree_line true None 1 zero_path_record fresh
  = (Throw zero_in_path, fresh)
  /\ readTree_line true (Some {[4 := {[3 := 42]}]}) 1 zero_path_multilayer
       fresh
     = (Throw zero_in_path, set_isHigherOrder true fresh)
  /\ readTree_line true (Some {[2 := {[10 := 42]}]}) 1 zero_path_multilayer
       fresh
     = (Continue, set_isHigherOrder true fresh).
Proof.
  split_and!.
  - apply (zero_path_element_is_rejected_unless_skipped true None 1
             zero_path_record fresh
             (mkTreeFields (mkStream "" true false) "1:0:2" 0.025641 "2" 2)
             (2, false) fresh [("1", ":"%char)] "0" ":2");
      vm_compute; reflexivity.
  - apply (zero_path_element_is_rejected_unless_skipped true
             (Some {[4 := {[3 := 42]}]}) 1 zero_path_multilayer fresh
             (mkTreeFields (Stream.str " 3 4") "1:0:2" 0.025641 "2" 2)
             (42, true) (set_isHigherOrder true fresh)
             [("1", ":"%char)] "0" ":2"); vm_compute; reflexivity.
  - apply (zero_path_element_is_rejected_unless_skipped true
             (Some {[2 := {[10 := 42]}]}) 1 zero_path_multilayer fresh
             (mkTreeFields (Stream.str " 3 4") "1:0:2" 0.025641 "2" 2)
             (2, false) (set_isHigherOrder true fresh)
             [("1", ":"%char)] "0" ":2"); vm_compute; reflexivity.
Defined.

(** ** The sample record of the tree format *)

(** C7.  A tree file that holds the one line [sample_record], read with
    flows and without an index by an object whose flag is not set:
    the call returns, [m_nodePaths] is exactly the entry of state 2 with
    path 1, 1, 2, and the flow of state 2 is 0.025641. *)
Theorem sample_record_is_read fs filename this :
  fs filename = Some sample_record ->
  m_isHigherOrder this = false ->
  let result := readTree fs filename true None this in
  result.1 = Normal tt
  /\ m_nodePaths result.2 = [(2, [1; 1; 2])]
  /\ m_flowData result.2 !! 2 = Some 0.025641%Q.
Proof.
  intros Hfile Hflag. rewrite (readTree_run _ _ _ _ _ _ Hfile).
  destruct this as [ids flows paths extension higher].
  simpl in Hflag. subst higher.
  change (set_nodePaths _ _) with (mkClusterMap ids flows [] extension false).
  rewrite sample_record_run.
  split_and!; [reflexivity | reflexivity | apply lookup_insert_eq].
Qed.

Lemma sample_record_is_read_witness :
  (readTree (single_file "p.tree" sample_record) "p.tree" true None fresh).1
  = Normal tt
  /\ m_nodePaths
       (readTree (single_file "p.tree" sample_record) "p.tree" true None
          fresh).2 = [(2, [1; 1; 2])]
  /\ m_flowData
       (readTree (single_file "p.tree" sample_record) "p.tree" true None
          fresh).2 !! 2 = Some 0.025641%Q.
Proof.
  apply (sample_record_is_read (single_file "p.tree" sample_record) "p.tree"
           fresh); reflexivity.
Defined.

(** ** The quoted name *)

(** C8.  The code at the record [unclosed_name_record], whose name is
    opened and not closed: the second [getline] of line 82 takes the rest
    of the line and does not fail, so the conversion error of line 83 is
    not raised; the state id cannot be read from the emptied stream and
    the parse ends with the format error of line 85. *)
Theorem unclosed_name_raises_a_format_error :
  readTree (single_file "p.tree" unclosed_name_record) "p.tree" true None
    fresh
  = (Throw (FileFormatError
              ("Couldn't parse node id from line '" +:+ unclosed_name_record
               +:+ "'")),
     fresh).
Proof. vm_compute. reflexivity. Qed.

(** ** Lines that begin with a star *)

(** C9.  In the tree loop a line that begins with a star ends the loop:
    the lines after it change nothing and cannot fail the parse, and when
    the lines before it were read without an error the call returns with
    the object they left.  In the cluster loop such a line is passed over
    and the lines after it are read as if it were not there. *)
Theorem star_line_ends_a_tree_and_is_skipped_in_a_clu
    includeFlow table before s after lineNr this :
  readTree_loop includeFlow table (before ++ String Char.star s :: after)%list
    lineNr this
  = readTree_loop includeFlow table before lineNr this
  /\ (forall lineNr' this',
      readTree_prefix includeFlow table before lineNr this
      = Some (lineNr', this') ->
      readTree_loop includeFlow table
        (before ++ String Char.star s :: after)%list lineNr this
      = (Normal tt, this'))
  /\ readClu_loop includeFlow table
       (before ++ String Char.star s :: after)%list this
     = readClu_loop includeFlow table (before ++ after)%list this.
Proof.
  split_and!.
  - apply readTree_loop_star.
  - intros lineNr' this' Hrun. rewrite readTree_loop_star.
    by apply (readTree_prefix_loop _ _ _ _ _ lineNr').
  - apply readClu_loop_star.
Qed.

Lemma star_line_ends_a_tree_and_is_skipped_in_a_clu_witness :
  readTree_loop true None
    ([sample_record] ++ "*Links" :: ["no record at all"])%list 0 fresh
  = (Normal tt,
     set_flowData <[2 := 0.025641%Q]>
       (set_nodePaths (fun _ => [(2, [1; 1; 2])]) fresh)).
Proof.
  apply (star_line_ends_a_tree_and_is_skipped_in_a_clu true None
           [sample_record] "Links" ["no record at all"] 0 fresh) with (lineNr' := 1).
  vm_compute. reflexivity.
Defined.

(** ** The path decoder *)

(** What begins an integer: a sign directly in front of a digit belongs to
    the integer that follows, so after the colon of [1:+2] an integer can
    be read, and is. *)
Lemma decodePath_reads_a_sign_with_its_digits :
  no_integer_at "+2" = false /\ decodePath "1:+2" = inr [1; 2].
Proof. vm_compute. done. Qed.

(** The fuel of the loop does not matter once there is enough of it. *)
Lemma decodePath_loop_fuel fuel fuel' s path :
  (String.length (rdbuf s) < fuel)%nat ->
  (String.length (rdbuf s) < fuel')%nat ->
  decodePath_loop fuel s path = decodePath_loop fuel' s path.
Proof.
  revert fuel' s path.
  induction fuel as [|fuel IH]; intros fuel' s path H H'; [lia|].
  destruct fuel' as [|fuel']; [lia|].
  rewrite !decodePath_loop_S.
  destruct (Stream.extract_unsigned s) as [s' v] eqn:E.
  destruct (Stream.fail s') eqn:Ef; [done|].
  destruct (v =? 0); [done|].
  pose proof (extract_unsigned_shortens _ _ _ E Ef).
  pose proof (get_length s'). apply IH; lia.
Qed.

(** A plus sign in front of a digit is taken with the integer and changes
    nothing. *)
Lemma extract_unsigned_plus rest :
  starts_nondigit rest = false ->
  Stream.extract_unsigned (Stream.str (String Char.plus rest))
  = Stream.extract_unsigned (Stream.str rest).
Proof.
  destruct rest as [|d r]; [done|]. simpl. intros Hd.
  apply negb_false_iff in Hd.
  destruct (isdigit_not_sign d Hd) as [Hm Hp].
  unfold Stream.extract_unsigned, Stream.sentry. simpl.
  rewrite (isdigit_not_space d Hd). simpl. by rewrite Hm, Hp.
Qed.

Lemma decodePath_loop_plus fuel segs rest path :
  forallb segment_ok segs = true -> starts_nondigit rest = false ->
  decodePath_loop (length segs + S fuel)
    (Stream.str (render segs +:+ String Char.plus rest)) path
  = decodePath_loop (length segs + S fuel)
      (Stream.str (render segs +:+ rest)) path.
Proof.
  revert path. induction segs as [|[ds c] segs IH]; intros path Hok Hrest.
  - simpl render. rewrite !append_nil. cbn [length Nat.add].
    rewrite !decodePath_loop_S. by rewrite (extract_unsigned_plus _ Hrest).
  - simpl in Hok. apply andb_prop in Hok as [Hsg Hok].
    rewrite !render_app_cons. cbn [length Nat.add].
    rewrite !(decodePath_loop_segment _ _ _ _ _ Hsg). by apply IH.
Qed.

Lemma decodePath_plus segs rest :
  forallb segment_ok segs = true -> starts_nondigit rest = false ->
  decodePath (render segs +:+ String Char.plus rest)
  = decodePath (render segs +:+ rest).
Proof.
  intros Hok Hrest. unfold decodePath.
  assert (String.length (render segs +:+ rest)
          <= String.length (render segs +:+ String Char.plus rest))%nat
    as Hlen by (rewrite !length_append; simpl; lia).
  rewrite (decodePath_loop_fuel
             (S (String.length (render segs +:+ String Char.plus rest)))
             (length segs
              + S (String.length (render segs +:+ String Char.plus rest)))
             (Stream.str (render segs +:+ String Char.plus rest)) []);
    [|simpl; lia..].
  rewrite (decodePath_loop_fuel
             (S (String.length (render segs +:+ rest)))
             (length segs
              + S (String.length (render segs +:+ String Char.plus rest)))
             (Stream.str (render segs +:+ rest)) []);
    [|simpl; lia..].
  by rewrite decodePath_loop_plus.
Qed.

(** A minus sign in front of a numeral negates it modulo 2^32. *)
Lemma uwrap_opp v :
  1 <= v -> v <= UINT_MAX -> uwrap (- Z.of_N v) = UINT_MAX + 1 - v.
Proof.
  unfold uwrap, UINT_MAX. intros H1 H2.
  change (2 ^ 32)%Z with 4294967296%Z.
  assert ((- Z.of_N v) mod 4294967296 = 4294967296 - Z.of_N v)%Z as ->.
  { symmetry. apply (Z.mod_unique _ _ (-1)); lia. }
  lia.
Qed.

Lemma extract_unsigned_minus ds rest :
  numeral ds = true -> starts_nondigit rest = true ->
  value ds <= UINT_MAX ->
  Stream.extract_unsigned (Stream.str (String Char.minus (ds +:+ rest)))
  = (mkStream rest (is_empty rest) false, uwrap (- Z.of_N (value ds))).
Proof.
  intros Hnum Hrest Hle.
  apply andb_prop in Hnum as [Hne Hds]. apply negb_true_iff in Hne.
  unfold Stream.extract_unsigned, Stream.sentry. simpl.
  rewrite (span_digits _ _ Hds Hrest), Hne.
  fold (value ds).
  destruct (N.ltb_spec UINT_MAX (value ds)); [lia | done].
Qed.

Lemma decodePath_loop_minus fuel segs ds path :
  forallb segment_ok segs = true ->
  uint_text ds = true -> 1 <= value ds ->
  (String.length (render segs +:+ String Char.minus ds) < fuel)%nat ->
  decodePath_loop fuel
    (Stream.str (render segs +:+ String Char.minus ds)) path
  = Some (inr (path ++ map (fun sg => value sg.1) segs
                    ++ [UINT_MAX + 1 - value ds])%list).
Proof.
  revert fuel path.
  induction segs as [|[ds' c] segs IH]; intros fuel path Hok Hds Hpos Hlen.
  - simpl render in *. rewrite append_nil in *.
    pose proof Hds as Hds'. unfold uint_text in Hds'.
    apply andb_prop in Hds' as [Hnum Hle]. apply N.leb_le in Hle.
    assert (0 < String.length ds)%nat.
    { apply is_empty_false_length. unfold numeral in Hnum.
      by destruct ds. }
    simpl in Hlen.
    destruct fuel as [|[|fuel]]; [lia | lia |].
    rewrite decodePath_loop_S.
    rewrite <- (append_empty_r ds) at 1.
    rewrite (extract_unsigned_minus ds EmptyString Hnum); [|done|done].
    rewrite (uwrap_opp _ Hpos Hle).
    assert (UINT_MAX + 1 - value ds <> 0) as Hne
      by (unfold UINT_MAX in *; lia).
    apply N.eqb_neq in Hne.
    cbn [Stream.fail failbit is_empty]. rewrite Hne.
    rewrite decodePath_loop_S. reflexivity.
  - simpl in Hok. apply andb_prop in Hok as [Hsg Hok].
    rewrite render_app_cons in *.
    destruct fuel as [|fuel]; [lia|].
    rewrite (decodePath_loop_segment _ _ _ _ _ Hsg).
    rewrite length_append in Hlen. simpl in Hlen.
    rewrite IH; [|done|done|done|lia].
    simpl. by rewrite <- app_assoc.
Qed.

(** C10, as stated, fails for a sign.  In the path of
    [signed_path_record] the integers 1 and 2 are separated by two
    characters that are no digits, a colon and a plus sign; the record is
    stored with the full path, not with the path cut after the 1. *)
Lemma signed_path_element_is_read_in_full :
  readTree (single_file "p.tree" signed_path_record) "p.tree" false None
    fresh
  = (Normal tt, set_nodePaths (fun _ => [(7, [1; 2])]) fresh).
Proof. vm_compute. reflexivity. Qed.

(** C10, amended.  The decoder reads one integer at a time, as the
    extraction operator reads it, and takes one character after it.  On a
    token made of integers from 1 to [UINT_MAX], each followed by one
    delimiter, it stops without an error at the first position where no
    integer can be read (the end of the token, or a character that is
    neither a digit nor white space nor a sign in front of a digit) and
    returns the integers read so far, whatever follows: 1::2 gives the
    path 1.  A sign in front of a digit is no such position, it belongs
    to the integer that follows: with a plus sign the token decodes as it
    does without it, and a minus sign in front of a last integer gives
    that integer negated modulo 2^32. *)
Theorem decodePath_stops_where_no_integer_can_be_read segs :
  forallb segment_ok segs = true ->
  (forall tail,
     no_integer_at tail = true ->
     decodePath (render segs +:+ tail)
     = inr (map (fun sg => value sg.1) segs))
  /\ (forall rest,
        starts_nondigit rest = false ->
        decodePath (render segs +:+ String Char.plus rest)
        = decodePath (render segs +:+ rest))
  /\ (forall ds,
        uint_text ds = true -> 1 <= value ds ->
        decodePath (render segs +:+ String Char.minus ds)
        = inr (map (fun sg => value sg.1) segs
                 ++ [UINT_MAX + 1 - value ds])%list).
Proof.
  intros Hok. split_and!.
  - intros tail Htail. by apply decodePath_stops.
  - intros rest Hrest. by apply decodePath_plus.
  - intros ds Hds Hpos. unfold decodePath.
    rewrite (decodePath_loop_minus _ segs ds [] Hok Hds Hpos); [done | lia].
Qed.

Lemma decodePath_stops_where_no_integer_can_be_read_witness :
  decodePath "1::2" = inr [1]
  /\ decodePath "1:+2" = decodePath "1:2"
  /\ decodePath "1:-2" = inr [1; 4294967294].
Proof.
  destruct (decodePath_stops_where_no_integer_can_be_read
              [("1", ":"%char)] eq_refl) as (Hstop & Hplus & Hminus).
  split_and!.
  - exact (Hstop ":2" eq_refl).
  - exact (Hplus "2" eq_refl).
  - apply (Hminus "2"); by vm_compute.
Defined.

(** * Further properties of the readers *)

(** ** One turn of a loop *)

Ltac step_range :=
  first [ by intros ? [=]
        | intros ? [= <-]; do 2 eexists; eassumption ].

Ltac tree_leaf :=
  simpl;
  first
    [ by (eexists; split; [left; reflexivity | left; reflexivity])
    | by (eexists; split; [right; reflexivity | left; reflexivity]) ].

Ltac tree_emit flow :=
  simpl;
  first
    [ by (eexists; split;
          [ left; reflexivity
          | right; do 3 eexists; exists flow;
            split_and!; [eassumption | | reflexivity]; step_range ])
    | by (eexists; split;
          [ right; reflexivity
          | right; do 3 eexists; exists flow;
            split_and!; [eassumption | | reflexivity]; step_range ]) ].

Lemma readTree_line_step includeFlow table lineNr line this :
  tree_step includeFlow table this
    (readTree_line includeFlow table lineNr line this).2.
Proof.
  unfold readTree_line.
  destruct (String.length line =? 0)%nat; [tree_leaf|].
  destruct (starts_with Char.hash line); [tree_leaf|].
  destruct (starts_with Char.star line); [tree_leaf|].
  unfold readTree_record, readTree_ids. run_monad.
  destruct (readTree_fields lineNr line) as [e|f]; [tree_leaf|].
  cbv beta iota.
  destruct (Stream.extract_unsigned (tf_stream f)) as [s1 nodeId].
  destruct (Stream.fail s1); simpl.
  - destruct (m_isHigherOrder this); [tree_leaf|].
    destruct table as [table|]; simpl.
    + destruct (Stream.extract_unsigned s1) as [s2 layerId].
      destruct (Stream.fail s2); simpl; [tree_leaf|].
      destruct (resolve table layerId nodeId) eqn:Er; simpl; [|tree_leaf].
      destruct (decodePath (tf_pathString f)) eqn:Ep; simpl; [tree_leaf|].
      destruct includeFlow; tree_emit (tf_flow f).
    + destruct (decodePath (tf_pathString f)) eqn:Ep; simpl; [tree_leaf|].
      destruct includeFlow; tree_emit (tf_flow f).
  - destruct table as [table|]; simpl.
    + destruct (Stream.extract_unsigned s1) as [s2 layerId].
      destruct (Stream.fail s2); simpl; [tree_leaf|].
      destruct (resolve table layerId nodeId) eqn:Er; simpl; [|tree_leaf].
      destruct (decodePath (tf_pathString f)) eqn:Ep; simpl; [tree_leaf|].
      destruct includeFlow; tree_emit (tf_flow f).
    + destruct (decodePath (tf_pathString f)) eqn:Ep; simpl; [tree_leaf|].
      destruct includeFlow; tree_emit (tf_flow f).
Qed.

Ltac clu_leaf :=
  simpl;
  first
    [ by (eexists; split; [left; reflexivity | left; reflexivity])
    | by (eexists; split;
          [ right; split; [reflexivity | do 2 eexists; reflexivity]
          | left; reflexivity ])
    | by (eexists; split;
          [ left; reflexivity
          | right; do 2 eexists; split; [| reflexivity]; step_range ])
    | by (eexists; split;
          [ right; split; [reflexivity | do 2 eexists; reflexivity]
          | right; do 2 eexists; split; [| reflexivity]; step_range ]) ].

Lemma readClu_line_step includeFlow table line this :
  clu_step includeFlow table this (readClu_line includeFlow table line this).2.
Proof.
  unfold readClu_line.
  destruct (_ || _); [clu_leaf|].
  run_monad.
  destruct (Stream.extract_unsigned (Stream.str line)) as [s1 stateId].
  destruct (Stream.extract_unsigned s1) as [s2 moduleId].
  destruct (Stream.fail s2); simpl; [clu_leaf|].
  destruct (Stream.extract_double s2) as [s3 flow].
  destruct (Stream.fail s3), includeFlow; simpl;
    (destruct table as [table|]; simpl; [|clu_leaf]);
    (destruct (Stream.extract_unsigned s3) as [s4 nodeId]);
    (destruct (Stream.fail s4); simpl; [clu_leaf|]);
    (destruct (Stream.extract_unsigned s4) as [s5 layerId]);
    (destruct (Stream.fail s5); simpl; [clu_leaf|]);
    (destruct (resolve table layerId nodeId) eqn:Er; simpl; clu_leaf).
Qed.

(** What every turn keeps, the loop keeps. *)
Lemma readTree_loop_keeps (P : ClusterMap -> Prop) includeFlow table :
  (forall x y, tree_step includeFlow table x y -> P x -> P y) ->
  forall lines lineNr this,
    P this -> P (readTree_loop includeFlow table lines lineNr this).2.
Proof.
  intros Hstep lines.
  induction lines as [|line lines IH]; intros lineNr this HP; [done|].
  rewrite readTree_loop_cons.
  pose proof (readTree_line_step includeFlow table
                (uwrap (Z.of_N lineNr + 1)) line this) as Hl.
  destruct (readTree_line _ _ _ _ this) as [[[]| | |e] this1]; simpl in *;
    eauto.
Qed.

Lemma readClu_loop_keeps (P : ClusterMap -> Prop) includeFlow table :
  (forall x y, clu_step includeFlow table x y -> P x -> P y) ->
  forall lines this,
    P this -> P (readClu_loop includeFlow table lines this).2.
Proof.
  intros Hstep lines.
  induction lines as [|line lines IH]; intros this HP; [done|].
  rewrite readClu_loop_cons.
  pose proof (readClu_line_step includeFlow table line this) as Hl.
  destruct (readClu_line _ _ _ this) as [[[]| | |e] this1]; simpl in *;
    eauto.
Qed.

Lemma readClu_run fs filename text includeFlow table this :
  fs filename = Some text ->
  readClu fs filename includeFlow table this
  = readClu_loop includeFlow table (getlines text) this.
Proof. intros H. unfold readClu, SafeInFile. rewrite H. reflexivity. Qed.

Lemma readTree_closed fs filename includeFlow table this :
  fs filename = None ->
  readTree fs filename includeFlow table this
  = (Throw (FileOpenError filename), this).
Proof. intros H. unfold readTree, SafeInFile. rewrite H. reflexivity. Qed.

Lemma readClu_closed fs filename includeFlow table this :
  fs filename = None ->
  readClu fs filename includeFlow table this
  = (Throw (FileOpenError filename), this).
Proof. intros H. unfold readClu, SafeInFile. rewrite H. reflexivity. Qed.

(** ** What the collections hold after a call *)

Lemma tree_step_flows table x y :
  tree_step false table x y -> m_flowData y = m_flowData x.
Proof.
  intros (base & [-> | ->] & [-> | (s & ps & p & q & _ & _ & ->)]); done.
Qed.

Lemma clu_step_flows table x y :
  clu_step false table x y -> m_flowData y = m_flowData x.
Proof.
  intros (base & [-> | [? _]] & [-> | (s & m & _ & ->)]); done.
Qed.

Lemma extract_unsigned_range s :
  (Stream.extract_unsigned s).2 <= UINT_MAX.
Proof.
  unfold Stream.extract_unsigned.
  destruct (Stream.sentry false s) as [[] s0]; [|done].
  destruct (take_sign (rdbuf s0)) as [negative b].
  destruct (span Char.isdigit b) as [ds rest].
  destruct (is_empty ds); [done|].
  destruct (N.ltb_spec UINT_MAX (digits_val 0 ds)); simpl; [done|].
  destruct negative; [|done].
  unfold uwrap, UINT_MAX.
  pose proof (Z.mod_pos_bound (- Z.of_N (digits_val 0 ds)) (2 ^ 32)).
  lia.
Qed.

Lemma decodePath_loop_range fuel s path r :
  decodePath_loop fuel s path = Some (inr r) ->
  Forall (fun n => 1 <= n <= UINT_MAX) path ->
  Forall (fun n => 1 <= n <= UINT_MAX) r.
Proof.
  revert s path. induction fuel as [|fuel IH]; intros s path; [done|].
  rewrite decodePath_loop_S.
  pose proof (extract_unsigned_range s) as Hle.
  destruct (Stream.extract_unsigned s) as [s' v]. simpl in Hle.
  destruct (Stream.fail s'); [by intros [= <-]|].
  destruct (N.eqb_spec v 0); [done|].
  intros Hrun Hpath. apply (IH _ _ Hrun).
  apply Forall_app. split; [done|]. apply Forall_singleton. lia.
Qed.

Lemma decodePath_range pathString path :
  decodePath pathString = inr path ->
  Forall (fun n => 1 <= n <= UINT_MAX) path.
Proof.
  unfold decodePath.
  destruct (decodePath_loop _ _ _) as [[e|r]|] eqn:E; simpl; [done| |].
  - intros [= <-]. by apply (decodePath_loop_range _ _ _ _ E).
  - intros [= <-]. constructor.
Qed.

Lemma tree_step_positive includeFlow table x y :
  tree_step includeFlow table x y -> paths_positive x -> paths_positive y.
Proof.
  unfold paths_positive.
  intros (base & Hbase & [-> | (s & ps & p & q & Hp & _ & ->)]) Hx.
  - by destruct Hbase as [-> | ->].
  - assert (m_nodePaths base = m_nodePaths x) as Hb
      by (by destruct Hbase as [-> | ->]).
    assert (Forall (fun entry : N * Path =>
                      Forall (fun n => 1 <= n <= UINT_MAX) entry.2)
                   (m_nodePaths base ++ [(s, p)])) as Hall.
    { rewrite Hb. apply Forall_app. split; [done|].
      apply Forall_singleton. simpl. by apply (decodePath_range ps). }
    by destruct includeFlow.
Qed.

Lemma tree_step_have_flows table x y :
  tree_step true table x y -> paths_have_flows x -> paths_have_flows y.
Proof.
  unfold paths_have_flows.
  intros (base & Hbase & [-> | (s & ps & p & q & _ & _ & ->)]) Hx.
  - by destruct Hbase as [-> | ->].
  - assert (m_nodePaths base = m_nodePaths x
            /\ m_flowData base = m_flowData x) as [Hb Hf]
      by (by destruct Hbase as [-> | ->]).
    simpl. rewrite Hb, Hf. apply Forall_app. split.
    + eapply Forall_impl; [exact Hx|]. intros entry Hentry. simpl in *.
      apply lookup_insert_is_Some'. by right.
    + apply Forall_singleton. simpl. rewrite lookup_insert_eq. by eexists.
Qed.

Lemma tree_step_in_index includeFlow table x y :
  tree_step includeFlow (Some table) x y ->
  Forall (fun entry => in_index table entry.1) (m_nodePaths x) ->
  Forall (fun entry => in_index table entry.1) (m_nodePaths y).
Proof.
  intros (base & Hbase & [-> | (s & ps & p & q & _ & Hs & ->)]) Hx.
  - by destruct Hbase as [-> | ->].
  - assert (m_nodePaths base = m_nodePaths x) as Hb
      by (by destruct Hbase as [-> | ->]).
    assert (Forall (fun entry : N * Path => in_index table entry.1)
                   (m_nodePaths base ++ [(s, p)])) as Hall.
    { rewrite Hb. apply Forall_app. split; [done|].
      apply Forall_singleton. simpl. by apply Hs. }
    by destruct includeFlow.
Qed.

Lemma clu_step_in_index includeFlow table this0 x y :
  clu_step includeFlow (Some table) x y ->
  (forall k, is_Some (m_clusterIds x !! k) ->
             is_Some (m_clusterIds this0 !! k) \/ in_index table k) ->
  forall k, is_Some (m_clusterIds y !! k) ->
            is_Some (m_clusterIds this0 !! k) \/ in_index table k.
Proof.
  intros (base & Hbase & Hy) Hx k.
  assert (m_clusterIds base = m_clusterIds x) as Hb.
  { destruct Hbase as [-> | (_ & s & q & ->)]; done. }
  destruct Hy as [-> | (s & m & Hs & ->)].
  - rewrite Hb. apply Hx.
  - simpl. rewrite Hb. intros Hk.
    apply lookup_insert_is_Some' in Hk as [<- | Hk]; [|by apply Hx].
    right. by apply Hs.
Qed.

Lemma tree_step_appends includeFlow table x y :
  tree_step includeFlow table x y ->
  exists added,
    m_nodePaths y = (m_nodePaths x ++ added)%list /\ (length added <= 1)%nat.
Proof.
  intros (base & Hbase & Hy).
  assert (m_nodePaths base = m_nodePaths x) as Hb
    by (by destruct Hbase as [-> | ->]).
  destruct Hy as [-> | (s & ps & p & q & _ & _ & ->)].
  - exists []. rewrite Hb, app_nil_r. split; [done | simpl; lia].
  - exists [(s, p)]. split; [|simpl; lia].
    destruct includeFlow; simpl; by rewrite Hb.
Qed.

Lemma readTree_loop_appends includeFlow table lines lineNr this :
  exists added,
    m_nodePaths (readTree_loop includeFlow table lines lineNr this).2
    = (m_nodePaths this ++ added)%list
    /\ (length added <= length lines)%nat.
Proof.
  revert lineNr this.
  induction lines as [|line lines IH]; intros lineNr this.
  - exists []. simpl. by rewrite app_nil_r.
  - rewrite readTree_loop_cons.
    destruct (tree_step_appends _ _ _ _
                (readTree_line_step includeFlow table
                   (uwrap (Z.of_N lineNr + 1)) line this))
      as (a1 & Ha1 & Hl1).
    destruct (readTree_line _ _ _ _ this) as [[[]| | |e] this1];
      simpl in Ha1;
      try (destruct (IH (uwrap (Z.of_N lineNr + 1)) this1)
             as (a2 & Ha2 & Hl2);
           exists (a1 ++ a2)%list; rewrite Ha2, Ha1, app_assoc;
           split; [done | rewrite length_app; simpl; lia]);
      (exists a1; simpl; split; [done | lia]).
Qed.

Lemma readTree_line_flag_unchanged includeFlow table lineNr line this :
  has_node_id line = false ->
  m_isHigherOrder (readTree_line includeFlow table lineNr line this).2
  = m_isHigherOrder this.
Proof.
  unfold has_node_id, is_record, readTree_line.
  destruct (String.length line =? 0)%nat; [done|].
  destruct (starts_with Char.hash line); [done|].
  destruct (starts_with Char.star line); [done|]. simpl.
  intros Hno. apply bool_decide_eq_false in Hno.
  unfold readTree_record, readTree_ids. run_monad.
  destruct (readTree_fields lineNr line) as [e|f] eqn:Ef; [done|].
  cbv beta iota.
  assert (Stream.fail (Stream.extract_unsigned (tf_stream f)).1 = true)
    as Hfail.
  { unfold node_id_read in Hno.
    rewrite (readTree_fields_lineNr _ 0 _ _ Ef) in Hno.
    destruct (Stream.fail _); [done|]. by destruct Hno. }
  destruct (Stream.extract_unsigned (tf_stream f)) as [s1 nodeId].
  simpl in Hfail. rewrite Hfail. simpl.
  destruct (m_isHigherOrder this) eqn:Hflag; [exact Hflag|].
  destruct table as [table|]; simpl.
  - destruct (Stream.extract_unsigned s1) as [s2 layerId].
    destruct (Stream.fail s2); simpl; [exact Hflag|].
    destruct (resolve table layerId nodeId); simpl; [|exact Hflag].
    destruct (decodePath (tf_pathString f)); simpl; [exact Hflag|].
    destruct includeFlow; exact Hflag.
  - destruct (decodePath (tf_pathString f)); simpl; [exact Hflag|].
    destruct includeFlow; exact Hflag.
Qed.

(** X1.  Without [includeFlow] no call writes a flow: whatever the file
    name, the files and the index, [m_flowData] is after the call what it
    was before. *)
Theorem flows_are_left_alone_without_includeFlow fs filename table this :
  m_flowData (readClusterData fs filename false table this).2
  = m_flowData this.
Proof.
  rewrite readClusterData_run. cbv zeta.
  set (this0 := set_extension (getExtension filename) this).
  change (m_flowData this) with (m_flowData this0).
  destruct (_ || _).
  - destruct (fs filename) as [text|] eqn:Hfile.
    + rewrite (readTree_run _ _ _ _ _ _ Hfile).
      apply (readTree_loop_keeps (fun x => m_flowData x = m_flowData this0));
        [|done].
      intros x y Hstep Hx. by rewrite (tree_step_flows _ _ _ Hstep).
    + by rewrite (readTree_closed _ _ _ _ _ Hfile).
  - destruct (String.eqb _ "clu"); [|done].
    destruct (fs filename) as [text|] eqn:Hfile.
    + rewrite (readClu_run _ _ _ _ _ _ Hfile).
      apply (readClu_loop_keeps (fun x => m_flowData x = m_flowData this0));
        [|done].
      intros x y Hstep Hx. by rewrite (clu_step_flows _ _ _ Hstep).
    + by rewrite (readClu_closed _ _ _ _ _ Hfile).
Qed.

(** X2.  The tree reader never writes a module: [m_clusterIds] is after
    [readTree] what it was before, on every input. *)
Theorem readTree_leaves_the_modules fs filename includeFlow table this :
  m_clusterIds (readTree fs filename includeFlow table this).2
  = m_clusterIds this.
Proof.
  apply (preserving_readTree
           (fun x y => m_clusterIds y = m_clusterIds x));
    [done | intros x y z Hxy Hyz; congruence | done..].
Qed.

(** X3.  Every path the tree reader stores is made of integers from 1 to
    [UINT_MAX]: once the file is open, whatever it holds and however the
    call ends, no stored path has a 0 in it. *)
Theorem stored_paths_are_positive fs filename text includeFlow table this :
  fs filename = Some text ->
  paths_positive (readTree fs filename includeFlow table this).2.
Proof.
  intros Hfile. rewrite (readTree_run _ _ _ _ _ _ Hfile).
  apply (readTree_loop_keeps paths_positive); [|constructor].
  apply tree_step_positive.
Qed.

Lemma stored_paths_are_positive_witness :
  paths_positive
    (readTree (single_file "p.tree" sample_record) "p.tree" true None used).2.
Proof.
  apply (stored_paths_are_positive (single_file "p.tree" sample_record)
           "p.tree" sample_record true None used).
  reflexivity.
Defined.

(** X4.  When flows are asked for, every state id the tree reader stores a
    path for has a flow: once the file is open, each entry of
    [m_nodePaths] has its state id in [m_flowData], however the call
    ends. *)
Theorem stored_paths_have_flows fs filename text table this :
  fs filename = Some text ->
  paths_have_flows (readTree fs filename true table this).2.
Proof.
  intros Hfile. rewrite (readTree_run _ _ _ _ _ _ Hfile).
  apply (readTree_loop_keeps paths_have_flows); [|constructor].
  apply tree_step_have_flows.
Qed.

Lemma stored_paths_have_flows_witness :
  paths_have_flows
    (readTree (single_file "p.tree" sample_record) "p.tree" true None used).2.
Proof.
  apply (stored_paths_have_flows (single_file "p.tree" sample_record)
           "p.tree" sample_record None used).
  reflexivity.
Defined.

(** X5.  In multilayer mode the tree reader stores paths under state ids
    of the index only: once the file is open, every state id in
    [m_nodePaths] is one the index resolves some (layer, node) pair to,
    never the state id written in the line. *)
Theorem multilayer_tree_state_ids_are_resolved
    fs filename text includeFlow table this :
  fs filename = Some text ->
  Forall (fun entry => in_index table entry.1)
         (m_nodePaths (readTree fs filename includeFlow (Some table) this).2).
Proof.
  intros Hfile. rewrite (readTree_run _ _ _ _ _ _ Hfile).
  apply (readTree_loop_keeps
           (fun x => Forall (fun entry => in_index table entry.1)
                            (m_nodePaths x))); [|constructor].
  apply tree_step_in_index.
Qed.

Lemma multilayer_tree_state_ids_are_resolved_witness :
  Forall (fun entry => in_index {[4 := {[3 := 42]}]} entry.1)
         (m_nodePaths
            (readTree (single_file "p.tree" multilayer_record) "p.tree"
               true (Some {[4 := {[3 := 42]}]}) used).2).
Proof.
  apply (multilayer_tree_state_ids_are_resolved
           (single_file "p.tree" multilayer_record) "p.tree"
           multilayer_record true {[4 := {[3 := 42]}]} used).
  reflexivity.
Defined.

(** X6.  In multilayer mode the cluster reader stores modules under state
    ids of the index only: a state id that has a module after [readClu]
    had one before the call or is one the index resolves some (layer,
    node) pair to. *)
Theorem multilayer_clu_state_ids_are_resolved
    fs filename includeFlow table this k :
  is_Some (m_clusterIds
             (readClu fs filename includeFlow (Some table) this).2 !! k) ->
  is_Some (m_clusterIds this !! k) \/ in_index table k.
Proof.
  destruct (fs filename) as [text|] eqn:Hfile.
  - rewrite (readClu_run _ _ _ _ _ _ Hfile). revert k.
    apply (readClu_loop_keeps
             (fun x => forall k, is_Some (m_clusterIds x !! k) ->
                       is_Some (m_clusterIds this !! k) \/ in_index table k));
      [|by left].
    apply clu_step_in_index.
  - rewrite (readClu_closed _ _ _ _ _ Hfile). by left.
Qed.

Lemma multilayer_clu_state_ids_are_resolved_witness :
  is_Some (m_clusterIds used !! 42) \/ in_index {[2 := {[10 := 42]}]} 42.
Proof.
  apply (multilayer_clu_state_ids_are_resolved
           (single_file "p.clu" clu_record) "p.clu" true
           {[2 := {[10 := 42]}]} used 42).
  vm_compute. by eexists.
Defined.

(** The paths after a prefix of the lines are a prefix of the paths after
    all of them. *)
Lemma readTree_loop_appends_behind includeFlow table pre post lineNr this :
  exists added,
    m_nodePaths
      (readTree_loop includeFlow table (pre ++ post)%list lineNr this).2
    = (m_nodePaths (readTree_loop includeFlow table pre lineNr this).2
       ++ added)%list
    /\ (length added <= length post)%nat.
Proof.
  revert lineNr this. induction pre as [|l pre IH]; intros lineNr this.
  - apply readTree_loop_appends.
  - simpl app. rewrite !readTree_loop_cons.
    destruct (readTree_line _ _ _ _ this) as [[[]| | |e] this1];
      try apply IH; exists []; simpl; (split; [by rewrite app_nil_r | lia]).
Qed.

(** X7.  The tree loop only appends to [m_nodePaths], at most one entry for
    each line it is given, and in the order of the lines: what the lines
    read so far have stored stays in front, the paths after a prefix of
    the lines being a prefix of the paths after all of them, with at most
    one entry more for each further line.  So a tree file leaves at most
    as many paths as it has lines. *)
Theorem readTree_appends_at_most_one_path_per_line
    fs filename includeFlow table this :
  (forall lines lineNr,
     exists added,
       m_nodePaths (readTree_loop includeFlow table lines lineNr this).2
       = (m_nodePaths this ++ added)%list
       /\ (length added <= length lines)%nat)
  /\ (forall pre post lineNr,
        exists added,
          m_nodePaths
            (readTree_loop includeFlow table (pre ++ post)%list lineNr
               this).2
          = (m_nodePaths
               (readTree_loop includeFlow table pre lineNr this).2
             ++ added)%list
          /\ (length added <= length post)%nat)
  /\ (forall text,
        fs filename = Some text ->
        (length (m_nodePaths
                   (readTree fs filename includeFlow table this).2)
         <= length (getlines text))%nat).
Proof.
  split_and!.
  - intros lines lineNr. apply readTree_loop_appends.
  - intros pre post lineNr. apply readTree_loop_appends_behind.
  - intros text Hfile. rewrite (readTree_run _ _ _ _ _ _ Hfile).
    destruct (readTree_loop_appends includeFlow table (getlines text) 0
                (set_nodePaths (fun _ => []) this)) as (added & -> & Hlen).
    done.
Qed.

Lemma readTree_appends_at_most_one_path_per_line_witness :
  (length (m_nodePaths
             (readTree (single_file "p.tree" sample_record) "p.tree" true
                None used).2)
   <= length (getlines sample_record))%nat.
Proof.
  apply (readTree_appends_at_most_one_path_per_line
           (single_file "p.tree" sample_record) "p.tree" true None used).
  reflexivity.
Defined.

(** X8.  Only a record with a node id behind its state id sets the
    higher-order flag: over lines none of which is such a record the tree
    loop leaves the flag as it found it, however it ends. *)
Theorem flag_is_set_by_node_ids_only includeFlow table lines lineNr this :
  Forall (fun line => has_node_id line = false) lines ->
  m_isHigherOrder (readTree_loop includeFlow table lines lineNr this).2
  = m_isHigherOrder this.
Proof.
  revert lineNr this.
  induction lines as [|line lines IH]; intros lineNr this Hall; [done|].
  apply Forall_cons in Hall as [Hline Hall].
  rewrite readTree_loop_cons.
  pose proof (readTree_line_flag_unchanged includeFlow table
                (uwrap (Z.of_N lineNr + 1)) line this Hline) as Hl.
  destruct (readTree_line _ _ _ _ this) as [[[]| | |e] this1]; simpl in *;
    try done; by rewrite IH.
Qed.

Lemma flag_is_set_by_node_ids_only_witness :
  m_isHigherOrder
    (readTree_loop true None ["# a header"; sample_record; "not a record"]
       0 fresh).2
  = m_isHigherOrder fresh.
Proof.
  apply (flag_is_set_by_node_ids_only true None
           ["# a header"; sample_record; "not a record"] 0 fresh).
  repeat constructor.
Defined.

(** ** Texts and the stream *)

Lemma isspace_not_digit c : Char.isspace c = true -> Char.isdigit c = false.
Proof. unfold Char.isdigit, Char.isspace. char_arith. Qed.

Lemma isspace_not_mark c :
  Char.isspace c = true ->
  Char.eqb c Char.hash = false /\ Char.eqb c Char.star = false.
Proof.
  unfold Char.isspace, Char.eqb.
  change (Char.code Char.hash) with 35.
  change (Char.code Char.star) with 42. char_arith.
Qed.

Lemma isdigit_not_mark c :
  Char.isdigit c = true ->
  Char.eqb c Char.hash = false /\ Char.eqb c Char.star = false.
Proof.
  unfold Char.isdigit, Char.eqb.
  change (Char.code Char.hash) with 35.
  change (Char.code Char.star) with 42. char_arith.
Qed.

Lemma skip_ws_all_space s : all_space s = true -> skip_ws s = EmptyString.
Proof.
  induction s as [|c s IH]; simpl; [done|].
  intros H. apply andb_prop in H as [Hc Hs]. rewrite Hc. by apply IH.
Qed.

Lemma all_digits_app a b :
  all_digits a = true -> all_digits b = true -> all_digits (a +:+ b) = true.
Proof.
  intros Ha Hb. induction a as [|c a IH]; [done|].
  simpl in Ha. apply andb_prop in Ha as [Hc Ha].
  rewrite append_cons. simpl. by rewrite Hc, IH.
Qed.

Lemma digit_le_9 c : Char.isdigit c = true -> Char.digit c <= 9.
Proof.
  unfold Char.isdigit, Char.digit. intros H.
  apply andb_prop in H as [H1 H2]. apply N.leb_le in H1, H2. lia.
Qed.

Lemma digits_val_bound acc ds :
  all_digits ds = true ->
  digits_val acc ds + 1 <= (acc + 1) * 10 ^ N.of_nat (String.length ds).
Proof.
  revert acc. induction ds as [|c ds IH]; intros acc Hds.
  - simpl. lia.
  - simpl in Hds. apply andb_prop in Hds as [Hc Hds].
    pose proof (digit_le_9 c Hc) as H9.
    specialize (IH (10 * acc + Char.digit c) Hds).
    change (digits_val acc (String c ds))
      with (digits_val (10 * acc + Char.digit c) ds).
    change (String.length (String c ds)) with (S (String.length ds)).
    rewrite Nat2N.inj_succ, N.pow_succ_r'.
    set (p := 10 ^ N.of_nat (String.length ds)) in *. nia.
Qed.

Lemma value_bound ds n :
  all_digits ds = true -> (String.length ds <= n)%nat ->
  value ds < 10 ^ N.of_nat n.
Proof.
  intros Hds Hlen. pose proof (digits_val_bound 0 ds Hds) as H.
  unfold value.
  assert (10 ^ N.of_nat (String.length ds) <= 10 ^ N.of_nat n)
    by (apply N.pow_le_mono_r; lia).
  lia.
Qed.

Lemma decimal_in_range m k :
  (0 <= m < 10 ^ 300)%Z ->
  Qle_bool DBL_OVERFLOW (Qabs (decimal m (- Z.of_nat k))) = false.
Proof.
  intros Hm. apply not_true_is_false. rewrite Qle_bool_iff.
  unfold decimal. rewrite Qred_correct.
  assert (10 ^ 300 < 2 ^ 1024 - 2 ^ 970)%Z as Hbig by (vm_compute; done).
  unfold DBL_OVERFLOW. set (B := (2 ^ 1024 - 2 ^ 970)%Z) in *.
  destruct (0 <=? - Z.of_nat k)%Z eqn:Hk.
  - apply Z.leb_le in Hk. assert (Z.of_nat k = 0%Z) as -> by lia.
    unfold Qle, Qabs, inject_Z. simpl Qnum. simpl Qden.
    change (10 ^ (- 0))%Z with 1%Z. lia.
  - unfold Qle, Qabs, inject_Z. simpl Qnum. simpl Qden.
    pose proof (Pos2Z.is_pos (Z.to_pos (10 ^ (- (- Z.of_nat k))))). nia.
Qed.

(** White space in front of a field is passed over. *)
Lemma extract_unsigned_space sp x :
  Char.isspace sp = true ->
  Stream.extract_unsigned (Stream.str (String sp x))
  = Stream.extract_unsigned (Stream.str x).
Proof.
  intros Hsp. unfold Stream.extract_unsigned, Stream.sentry. simpl.
  by rewrite Hsp.
Qed.

Lemma extract_double_space sp x :
  Char.isspace sp = true ->
  Stream.extract_double (Stream.str (String sp x))
  = Stream.extract_double (Stream.str x).
Proof.
  intros Hsp. unfold Stream.extract_double, Stream.sentry. simpl.
  by rewrite Hsp.
Qed.

Lemma span_token tok sp rest :
  no_space tok = true -> Char.isspace sp = true ->
  span (fun c => negb (Char.isspace c)) (tok +:+ String sp rest)
  = (tok, String sp rest).
Proof.
  intros Htok Hsp. induction tok as [|c tok IH].
  - rewrite append_nil. simpl. by rewrite Hsp.
  - simpl in Htok. apply andb_prop in Htok as [Hc Htok].
    rewrite append_cons. simpl. by rewrite Hc, IH.
Qed.

(** A token followed by white space is read whole. *)
Lemma extract_string_token tok sp rest :
  is_empty tok = false -> no_space tok = true -> Char.isspace sp = true ->
  Stream.extract_string (Stream.str (tok +:+ String sp rest))
  = (Stream.str (String sp rest), tok).
Proof.
  intros Hne Htok Hsp. destruct tok as [|c tok]; [done|].
  pose proof Htok as Htok'. simpl in Htok'.
  apply andb_prop in Htok' as [Hc Htok']. apply negb_true_iff in Hc.
  unfold Stream.extract_string, Stream.sentry.
  rewrite append_cons. simpl. rewrite Hc. simpl.
  rewrite (span_token _ _ _ Htok' Hsp), Hc. reflexivity.
Qed.

Lemma ends_flow_nondigit rest : ends_flow rest = true -> starts_nondigit rest = true.
Proof.
  destruct rest as [|c r]; [done|]. simpl. intros H.
  by apply andb_prop in H as [H _].
Qed.

#[local] Arguments decimal : simpl never.
#[local] Arguments DBL_OVERFLOW : simpl never.

(** A flow written with a dot is read as the number it denotes. *)
Lemma extract_double_flow ip fp rest :
  flow_ok ip fp = true -> ends_flow rest = true ->
  Stream.extract_double (Stream.str (flow_text ip fp +:+ rest))
  = (mkStream rest (is_empty rest) false, flow_value ip fp).
Proof.
  unfold flow_ok, flow_text. intros Hok Hrest.
  apply andb_prop in Hok as [Hok Hlen]. apply andb_prop in Hok as [Hip Hfp].
  apply Nat.leb_le in Hlen.
  pose proof Hip as Hip'. apply andb_prop in Hip' as [Hne Hds].
  destruct ip as [|c ip]; [done|].
  pose proof Hds as Hds'. simpl in Hds'.
  apply andb_prop in Hds' as [Hc _].
  destruct (isdigit_not_sign c Hc) as [Hm Hp].
  unfold Stream.extract_double, Stream.sentry.
  rewrite append_assoc, !append_cons. simpl.
  rewrite (isdigit_not_space c Hc). simpl. rewrite Hm, Hp.
  rewrite <- append_cons.
  rewrite (span_digits (String c ip) (String Char.dot (fp +:+ rest)) Hds);
    [|done].
  change (Char.eqb Char.dot Char.dot) with true. cbv iota.
  rewrite (span_digits fp rest Hfp (ends_flow_nondigit _ Hrest)).
  assert (is_empty (String c ip +:+ fp) = false) as Hmant by done.
  rewrite Hmant.
  assert (Qle_bool DBL_OVERFLOW
            (Qabs (decimal (Z.of_N (digits_val 0 (String c ip +:+ fp)))
                           (0 - Z.of_nat (String.length fp)))) = false)
    as Hfin.
  { change (0 - Z.of_nat (String.length fp))%Z
      with (- Z.of_nat (String.length fp))%Z.
    apply decimal_in_range.
    pose proof (value_bound (String c ip +:+ fp) 300
                  (all_digits_app _ _ Hds Hfp)) as Hb.
    rewrite length_append in Hb. specialize (Hb Hlen).
    unfold value in Hb. split; [apply N2Z.is_nonneg|].
    apply N2Z.inj_lt in Hb. rewrite N2Z.inj_pow, nat_N_Z in Hb.
    exact Hb. }
  destruct rest as [|c' r].
  - cbv beta iota zeta. cbn [negb andb]. rewrite Hfin. reflexivity.
  - simpl in Hrest. apply andb_prop in Hrest as [_ He].
    apply negb_true_iff in He. rewrite He.
    cbv beta iota zeta. cbn [negb andb]. rewrite Hfin. reflexivity.
Qed.

(** An integer in range, in front of something that is no digit, is read
    as the number it denotes. *)
Lemma extract_unsigned_text ds rest :
  uint_text ds = true -> starts_nondigit rest = true ->
  Stream.extract_unsigned (Stream.str (ds +:+ rest))
  = (mkStream rest (is_empty rest) false, value ds).
Proof.
  unfold uint_text. intros H Hrest. apply andb_prop in H as [Hnum Hle].
  apply N.leb_le in Hle. by apply extract_unsigned_numeral.
Qed.

(** ** Well-formed paths *)

Lemma decodePath_loop_last fuel ds path :
  uint_text ds = true -> 1 <= value ds ->
  decodePath_loop (S (S fuel)) (Stream.str ds) path
  = Some (inr (path ++ [value ds])%list).
Proof.
  intros Hds Hpos. rewrite decodePath_loop_S.
  rewrite <- (append_empty_r ds) at 1.
  rewrite (extract_unsigned_text ds EmptyString Hds); [|done]. simpl.
  destruct (N.eqb_spec (value ds) 0); [lia | done].
Qed.

Lemma decodePath_loop_path_text fuel segs last path :
  forallb segment_ok segs = true ->
  uint_text last = true -> 1 <= value last ->
  (String.length (path_text segs last) < fuel)%nat ->
  decodePath_loop fuel (Stream.str (path_text segs last)) path
  = Some (inr (path ++ path_value segs last)%list).
Proof.
  unfold path_text, path_value. revert fuel path.
  induction segs as [|[ds c] segs IH]; intros fuel path Hok Hlast Hpos Hlen.
  - simpl render in *. rewrite append_nil in *.
    assert (0 < String.length last)%nat.
    { apply is_empty_false_length. unfold uint_text, numeral in Hlast.
      destruct last; [done | done]. }
    destruct fuel as [|[|fuel]]; [lia | lia |].
    by apply decodePath_loop_last.
  - simpl in Hok. apply andb_prop in Hok as [Hsg Hok].
    rewrite render_app_cons in *.
    destruct fuel as [|fuel]; [lia|].
    rewrite (decodePath_loop_segment _ _ _ _ _ Hsg).
    rewrite length_append in Hlen. simpl in Hlen.
    rewrite IH; [|done|done|done|lia].
    simpl. by rewrite <- app_assoc.
Qed.

Lemma decodePath_path_text segs last :
  forallb segment_ok segs = true ->
  uint_text last = true -> 1 <= value last ->
  decodePath (path_text segs last) = inr (path_value segs last).
Proof.
  intros Hok Hlast Hpos. unfold decodePath.
  rewrite decodePath_loop_path_text; [done..|lia].
Qed.

(** The decoder on numerals, each followed by one delimiter, and then
    something the extraction fails on. *)
Lemma decodePath_loop_until fuel segs tail path :
  forallb segment_ok segs = true ->
  Stream.fail (Stream.extract_unsigned (Stream.str tail)).1 = true ->
  (String.length (render segs +:+ tail) < fuel)%nat ->
  decodePath_loop fuel (Stream.str (render segs +:+ tail)) path
  = Some (inr (path ++ map (fun sg => value sg.1) segs)%list).
Proof.
  revert fuel path.
  induction segs as [|[ds c] segs IH]; intros fuel path Hok Htail Hlen.
  - destruct fuel as [|fuel]; [lia|].
    rewrite decodePath_loop_S. simpl render. rewrite append_nil.
    destruct (Stream.extract_unsigned (Stream.str tail)) as [s' v].
    simpl in Htail. rewrite Htail. by rewrite app_nil_r.
  - simpl in Hok. apply andb_prop in Hok as [Hsg Hok].
    rewrite render_app_cons in *.
    destruct fuel as [|fuel]; [lia|].
    rewrite (decodePath_loop_segment _ _ _ _ _ Hsg).
    rewrite length_append in Hlen. simpl in Hlen.
    rewrite IH; [|done|done|lia].
    simpl. by rewrite <- app_assoc.
Qed.

(** A numeral above [UINT_MAX] is not read. *)
Lemma extract_unsigned_overflow ds rest :
  numeral ds = true -> UINT_MAX < value ds -> starts_nondigit rest = true ->
  Stream.fail (Stream.extract_unsigned (Stream.str (ds +:+ rest))).1 = true.
Proof.
  intros Hnum Hbig Hrest.
  apply andb_prop in Hnum as [Hne Hds].
  destruct ds as [|c ds]; [done|].
  pose proof Hds as Hds'. simpl in Hds'.
  apply andb_prop in Hds' as [Hc _].
  destruct (isdigit_not_sign c Hc) as [Hm Hp].
  unfold Stream.extract_unsigned, Stream.sentry.
  rewrite append_cons. simpl.
  rewrite (isdigit_not_space c Hc). simpl. rewrite Hm, Hp.
  rewrite <- append_cons.
  rewrite (span_digits _ _ Hds Hrest). simpl.
  change (digits_val _ ds) with (value (String c ds)).
  destruct (N.ltb_spec UINT_MAX (value (String c ds))); [done | lia].
Qed.

(** X9.  A path written as integers from 1 to [UINT_MAX] with one
    delimiter between them decodes to exactly these integers, in order;
    one more delimiter at its end changes nothing. *)
Theorem wellformed_path_decodes_to_its_integers segs last c :
  forallb segment_ok segs = true ->
  uint_text last = true -> 1 <= value last ->
  Char.isdigit c = false ->
  decodePath (path_text segs last) = inr (path_value segs last)
  /\ decodePath (path_text segs last +:+ String c EmptyString)
     = inr (path_value segs last).
Proof.
  intros Hok Hlast Hpos Hc. split; [by apply decodePath_path_text|].
  pose proof (decodePath_stops (segs ++ [(last, c)]) EmptyString) as H.
  assert (render (segs ++ [(last, c)]) = path_text segs last +:+ String c EmptyString)
    as Hrender.
  { unfold path_text. clear. induction segs as [|[ds d] segs IH].
    - simpl. by rewrite append_nil.
    - simpl. by rewrite IH, !append_assoc, append_cons. }
  rewrite append_empty_r, Hrender in H. rewrite H.
  - unfold path_value. by rewrite map_app.
  - rewrite forallb_app, Hok. simpl. rewrite andb_true_r.
    unfold segment_ok. simpl. unfold uint_text in Hlast.
    apply andb_prop in Hlast as [-> ->]. rewrite Hc.
    apply N.leb_le in Hpos. by rewrite Hpos.
  - done.
Qed.

Lemma wellformed_path_decodes_to_its_integers_witness :
  decodePath "12.3:4" = inr [12; 3; 4]
  /\ decodePath "12.3:4:" = inr [12; 3; 4].
Proof.
  apply (wellformed_path_decodes_to_its_integers
           [("12", "."%char); ("3", ":"%char)] "4" ":");
    by vm_compute.
Defined.

(** X10.  An integer above [UINT_MAX] in a path is not an error: the
    decoder stops in front of it and returns the integers before it,
    whatever follows, a 0 included. *)
Theorem path_is_cut_at_an_integer_out_of_range segs big rest :
  forallb segment_ok segs = true ->
  numeral big = true -> UINT_MAX < value big ->
  starts_nondigit rest = true ->
  decodePath (render segs +:+ big +:+ rest)
  = inr (map (fun sg => value sg.1) segs).
Proof.
  intros Hok Hnum Hbig Hrest. unfold decodePath.
  rewrite decodePath_loop_until; [done | done | | lia].
  by apply extract_unsigned_overflow.
Qed.

Lemma path_is_cut_at_an_integer_out_of_range_witness :
  decodePath "1:2:4294967296:0:3" = inr [1; 2].
Proof.
  apply (path_is_cut_at_an_integer_out_of_range
           [("1", ":"%char); ("2", ":"%char)] "4294967296" ":0:3");
    by vm_compute.
Defined.

(** ** Lines of white space *)

Lemma all_space_not_marked line :
  is_empty line = false -> all_space line = true ->
  (String.length line =? 0)%nat = false
  /\ starts_with Char.hash line = false
  /\ starts_with Char.star line = false.
Proof.
  destruct line as [|c line]; [done|]. simpl. intros _ H.
  apply andb_prop in H as [Hc _].
  by destruct (isspace_not_mark c Hc) as [-> ->].
Qed.

Lemma sentry_all_space line :
  all_space line = true ->
  Stream.sentry false (Stream.str line) = (false, mkStream EmptyString true true).
Proof.
  intros H. unfold Stream.sentry. simpl. by rewrite (skip_ws_all_space _ H).
Qed.

(** X11.  A line that is not empty and holds white space only (a lone
    carriage return, say) is not passed over like an empty line: it ends
    the parse with a format error in both readers, and changes nothing. *)
Theorem line_of_white_space_is_an_error
    includeFlow table lineNr line this :
  is_empty line = false -> all_space line = true ->
  readTree_line includeFlow table lineNr line this
  = (Throw (FileFormatError
              ("Couldn't parse tree path from line '" +:+ line +:+ "'")),
     this)
  /\ readClu_line includeFlow table line this
     = (Throw (FileFormatError
                 ("Couldn't parse node key and cluster id from line '"
                  +:+ line +:+ "'")),
        this).
Proof.
  intros Hne Hsp.
  destruct (all_space_not_marked line Hne Hsp) as (Hlen & Hhash & Hstar).
  assert (Stream.extract_string (Stream.str line)
          = (mkStream EmptyString true true, EmptyString)) as Hstring.
  { unfold Stream.extract_string. by rewrite (sentry_all_space _ Hsp). }
  assert (Stream.extract_unsigned (Stream.str line)
          = (mkStream EmptyString true true, 0)) as Hunsigned.
  { unfold Stream.extract_unsigned. by rewrite (sentry_all_space _ Hsp). }
  split.
  - unfold readTree_line. rewrite Hlen, Hhash, Hstar.
    unfold readTree_record, readTree_fields. rewrite Hstring. reflexivity.
  - unfold readClu_line. rewrite Hlen, Hhash, Hstar, Hunsigned.
    reflexivity.
Qed.

Lemma line_of_white_space_is_an_error_witness :
  readTree_line true None 3 (String (ascii_of_N 13) EmptyString) fresh
  = (Throw (FileFormatError
              ("Couldn't parse tree path from line '"
               +:+ String (ascii_of_N 13) EmptyString +:+ "'")),
     fresh)
  /\ readClu_line true None (String (ascii_of_N 13) EmptyString) fresh
     = (Throw (FileFormatError
                 ("Couldn't parse node key and cluster id from line '"
                  +:+ String (ascii_of_N 13) EmptyString +:+ "'")),
        fresh).
Proof.
  apply (line_of_white_space_is_an_error true None 3
           (String (ascii_of_N 13) EmptyString) fresh); reflexivity.
Defined.

(** ** Well-formed records of a tree file *)

Lemma getline_quote before rest :
  has_char Char.dquote before = false ->
  Stream.getline (Stream.str (before +:+ String Char.dquote rest)) Char.dquote
  = (Stream.str rest, before).
Proof.
  intros Hb. unfold Stream.getline. simpl.
  by rewrite (split_at_first _ _ _ Hb).
Qed.

Lemma fields_text_nondigit more : starts_nondigit (fields_text more) = true.
Proof. by destruct more. Qed.

(** The fields of a well-formed record are read as they are written, and
    the stream is left in front of the integers after the state id. *)
Lemma readTree_fields_text lineNr path ip fp name stateId more :
  is_empty path = false -> no_space path = true ->
  flow_ok ip fp = true ->
  has_char Char.dquote name = false ->
  uint_text stateId = true ->
  readTree_fields lineNr (tree_record_text path ip fp name stateId more)
  = inr (mkTreeFields
           (mkStream (fields_text more) (is_empty (fields_text more)) false)
           path (flow_value ip fp) name (value stateId)).
Proof.
  intros Hne Hpath Hflow Hname Hsid.
  unfold readTree_fields, tree_record_text.
  rewrite (extract_string_token path " " _ Hne Hpath); [|done].
  cbn [Stream.fail Stream.str failbit is_empty].
  rewrite (extract_double_space " "); [|done].
  rewrite (extract_double_flow ip fp _ Hflow); [|done].
  cbn [Stream.fail Stream.str failbit is_empty].
  change (Stream.getline
            (mkStream (String " " (String Char.dquote ?r)) false false)
            Char.dquote)
    with (mkStream r false false, " ").
  cbn [Stream.fail Stream.str failbit is_empty].
  change (mkStream ?x false false) with (Stream.str x).
  rewrite (getline_quote name _ Hname).
  cbn [Stream.fail Stream.str failbit is_empty].
  rewrite (extract_unsigned_space " "); [|done].
  rewrite (extract_unsigned_text stateId _ Hsid (fields_text_nondigit more)).
  reflexivity.
Qed.

Lemma path_text_head segs last :
  forallb segment_ok segs = true -> uint_text last = true ->
  exists c r, path_text segs last = String c r /\ Char.isdigit c = true.
Proof.
  unfold path_text. intros Hok Hlast.
  assert (forall ds, numeral ds = true ->
            exists c r, ds = String c r /\ Char.isdigit c = true) as Hnum.
  { intros [|c r] H; [done|]. exists c, r. split; [done|].
    apply andb_prop in H as [_ H]. simpl in H.
    by apply andb_prop in H as [H _]. }
  destruct segs as [|[ds d] segs].
  - simpl. rewrite append_nil. apply Hnum.
    unfold uint_text in Hlast. by apply andb_prop in Hlast as [H _].
  - simpl in Hok. apply andb_prop in Hok as [Hsg _].
    unfold segment_ok in Hsg. simpl in Hsg.
    apply andb_prop in Hsg as [Hsg _]. apply andb_prop in Hsg as [Hsg _].
    apply andb_prop in Hsg as [Hsg _].
    destruct (Hnum ds Hsg) as (c & r & -> & Hc).
    exists c. eexists. split; [|exact Hc].
    simpl render. rewrite !append_cons. reflexivity.
Qed.

Lemma tree_record_text_is_record segs last ip fp name stateId more :
  forallb segment_ok segs = true -> uint_text last = true ->
  is_record (tree_record_text (path_text segs last) ip fp name stateId more)
  = true
  /\ is_empty (path_text segs last) = false.
Proof.
  intros Hok Hlast.
  destruct (path_text_head segs last Hok Hlast) as (c & r & -> & Hc).
  unfold tree_record_text, is_record. rewrite append_cons. simpl.
  by destruct (isdigit_not_mark c Hc) as [-> ->].
Qed.

#[local] Arguments decodePath : simpl never.
#[local] Arguments flow_value : simpl never.
#[local] Arguments path_value : simpl never.
#[local] Arguments value : simpl never.

(** X12.  In single-layer mode a well-formed record (a path of integers
    from 1 to [UINT_MAX] with one delimiter between them, a flow written
    with a dot, a name in quotes, a state id, and a node id or nothing) is
    stored as it is written: its state id with the decoded path is
    appended to [m_nodePaths], its flow is stored under the state id when
    flows are asked for, and the flag is set when there is a node id.
    Without a node id the record needs the flag not to be set. *)
Theorem wellformed_tree_record_is_stored
    includeFlow lineNr segs last ip fp name stateId nodeId this :
  forallb segment_ok segs = true ->
  uint_text last = true -> 1 <= value last ->
  no_space (path_text segs last) = true ->
  flow_ok ip fp = true ->
  has_char Char.dquote name = false ->
  uint_text stateId = true ->
  match nodeId with
  | Some n => uint_text n = true
  | None => m_isHigherOrder this = false
  end ->
  readTree_line includeFlow None lineNr
    (tree_record_text (path_text segs last) ip fp name stateId
       (option_list nodeId)) this
  = (Normal tt,
     (if includeFlow
      then set_flowData <[value stateId := flow_value ip fp]>
      else fun x => x)
       (set_nodePaths
          (fun v => (v ++ [(value stateId, path_value segs last)])%list)
          (match nodeId with
           | Some _ => set_isHigherOrder true this
           | None => this
           end))).
Proof.
  intros Hok Hlast Hpos Hpath Hflow Hname Hsid Hnode.
  destruct (tree_record_text_is_record segs last ip fp name stateId
              (option_list nodeId) Hok Hlast) as [Hrec Hne].
  rewrite (readTree_line_record _ _ _ _ Hrec).
  unfold readTree_record. run_monad.
  rewrite (readTree_fields_text _ _ _ _ _ _ _ Hne Hpath Hflow Hname Hsid).
  cbv beta iota. unfold readTree_ids. run_monad.
  cbn [tf_stream tf_pathString tf_flow tf_stateId].
  rewrite (decodePath_path_text _ _ Hok Hlast Hpos).
  destruct nodeId as [nid|]; simpl (option_list _); simpl (fields_text _).
  - cbn [is_empty].
    change (mkStream ?x false false) with (Stream.str x).
    rewrite (extract_unsigned_space " "); [|done].
    rewrite (extract_unsigned_text nid _ Hnode); [|done].
    simpl. by destruct includeFlow.
  - simpl. rewrite Hnode. simpl. by destruct includeFlow.
Qed.

Lemma wellformed_tree_record_is_stored_witness :
  readTree_line true None 1
    (tree_record_text (path_text [("1", ":"%char); ("1", ":"%char)] "2")
       "0" "025641" "my node" "2" (option_list (Some "7"))) fresh
  = (Normal tt,
     set_flowData <[value "2" := flow_value "0" "025641"]>
       (set_nodePaths
          (fun v =>
             (v ++ [(value "2",
                     path_value [("1", ":"%char); ("1", ":"%char)] "2")])%list)
          (set_isHigherOrder true fresh))).
Proof.
  apply (wellformed_tree_record_is_stored true 1
           [("1", ":"%char); ("1", ":"%char)] "2" "0" "025641" "my node" "2"
           (Some "7") fresh); by vm_compute.
Defined.

(** X13.  In multilayer mode a well-formed record with a node id and a
    layer id is looked up in the index under (layer, node): when the pair
    is there, the path and, when flows are asked for, the flow are stored
    under the state id of the index, not the one of the line; when it is
    not, the line is passed over and nothing is stored.  Either way the
    flag is set. *)
Theorem wellformed_multilayer_tree_record_is_resolved
    includeFlow table lineNr segs last ip fp name stateId nodeId layerId this :
  forallb segment_ok segs = true ->
  uint_text last = true -> 1 <= value last ->
  no_space (path_text segs last) = true ->
  flow_ok ip fp = true ->
  has_char Char.dquote name = false ->
  uint_text stateId = true ->
  uint_text nodeId = true -> uint_text layerId = true ->
  readTree_line includeFlow (Some table) lineNr
    (tree_record_text (path_text segs last) ip fp name stateId
       [nodeId; layerId]) this
  = match resolve table (value layerId) (value nodeId) with
    | Some resolved =>
        (Normal tt,
         (if includeFlow
          then set_flowData <[resolved := flow_value ip fp]>
          else fun x => x)
           (set_nodePaths
              (fun v => (v ++ [(resolved, path_value segs last)])%list)
              (set_isHigherOrder true this)))
    | None => (Continue, set_isHigherOrder true this)
    end.
Proof.
  intros Hok Hlast Hpos Hpath Hflow Hname Hsid Hnode Hlayer.
  destruct (tree_record_text_is_record segs last ip fp name stateId
              [nodeId; layerId] Hok Hlast) as [Hrec Hne].
  rewrite (readTree_line_record _ _ _ _ Hrec).
  unfold readTree_record. run_monad.
  rewrite (readTree_fields_text _ _ _ _ _ _ _ Hne Hpath Hflow Hname Hsid).
  cbv beta iota. unfold readTree_ids. run_monad.
  cbn [tf_stream tf_pathString tf_flow tf_stateId].
  rewrite (decodePath_path_text _ _ Hok Hlast Hpos).
  simpl (fields_text _). cbn [is_empty].
  change (mkStream ?x false false) with (Stream.str x).
  rewrite (extract_unsigned_space " "); [|done].
  rewrite (extract_unsigned_text nodeId _ Hnode); [|done].
  cbn [is_empty Stream.fail failbit negb].
  change (bool_decide (is_Some (Some table))) with true. cbv iota.
  change (mkStream ?x false false) with (Stream.str x).
  rewrite (extract_unsigned_space " "); [|done].
  rewrite (extract_unsigned_text layerId _ Hlayer); [|done].
  simpl.
  destruct (resolve table (value layerId) (value nodeId)); simpl; [|done].
  by destruct includeFlow.
Qed.

Lemma wellformed_multilayer_tree_record_is_resolved_witness :
  readTree_line true (Some {[4 := {[3 := 42]}]}) 1
    (tree_record_text (path_text [("1", ":"%char)] "2") "0" "5" "a" "9"
       ["3"; "4"]) fresh
  = match resolve {[4 := {[3 := 42]}]} (value "4") (value "3") with
    | Some resolved =>
        (Normal tt,
         set_flowData <[resolved := flow_value "0" "5"]>
           (set_nodePaths
              (fun v =>
                 (v ++ [(resolved, path_value [("1", ":"%char)] "2")])%list)
              (set_isHigherOrder true fresh)))
    | None => (Continue, set_isHigherOrder true fresh)
    end.
Proof.
  apply (wellformed_multilayer_tree_record_is_resolved true
           {[4 := {[3 := 42]}]} 1 [("1", ":"%char)] "2" "0" "5" "a" "9"
           "3" "4" fresh); by vm_compute.
Defined.

(** ** Well-formed records of a cluster file *)

Lemma uint_text_head ds :
  uint_text ds = true ->
  exists c r, ds = String c r /\ Char.isdigit c = true.
Proof.
  unfold uint_text, numeral. intros H.
  apply andb_prop in H as [H _]. apply andb_prop in H as [Hne Hds].
  destruct ds as [|c r]; [done|]. exists c, r. split; [done|].
  simpl in Hds. by apply andb_prop in Hds as [H _].
Qed.

Lemma clu_record_text_is_record stateId moduleId more :
  uint_text stateId = true ->
  (String.length (clu_record_text stateId moduleId more) =? 0)%nat
  || starts_with Char.hash (clu_record_text stateId moduleId more)
  || starts_with Char.star (clu_record_text stateId moduleId more) = false.
Proof.
  intros Hsid. destruct (uint_text_head _ Hsid) as (c & r & -> & Hc).
  unfold clu_record_text. rewrite append_cons. simpl.
  by destruct (isdigit_not_mark c Hc) as [-> ->].
Qed.

(** The state id and the module of a well-formed record are read as they
    are written, and the stream is left in front of what follows them. *)
Lemma readClu_line_ids stateId moduleId more :
  uint_text stateId = true -> uint_text moduleId = true ->
  starts_nondigit more = true ->
  Stream.extract_unsigned (Stream.str (clu_record_text stateId moduleId more))
  = (Stream.str (String " " (moduleId +:+ more)), value stateId)
  /\ Stream.extract_unsigned (Stream.str (String " " (moduleId +:+ more)))
     = (mkStream more (is_empty more) false, value moduleId).
Proof.
  intros Hsid Hmid Hmore. unfold clu_record_text. split.
  - by rewrite (extract_unsigned_text stateId _ Hsid).
  - rewrite (extract_unsigned_space " "); [|done].
    by rewrite (extract_unsigned_text moduleId _ Hmid).
Qed.

(** A well-formed record of a cluster file in single-layer mode. *)
Lemma clu_record_text_run
    includeFlow stateId moduleId flow this :
  uint_text stateId = true -> uint_text moduleId = true ->
  match flow with
  | Some (ip, fp) => flow_ok ip fp = true
  | None => True
  end ->
  readClu_line includeFlow None
    (clu_record_text stateId moduleId
       (match flow with
        | Some (ip, fp) => flow_column ip fp
        | None => EmptyString
        end)) this
  = (Normal tt,
     set_clusterIds <[value stateId := value moduleId]>
       (match flow with
        | Some (ip, fp) =>
            if includeFlow
            then set_flowData <[value stateId := flow_value ip fp]> this
            else this
        | None => this
        end)).
Proof.
  intros Hsid Hmid Hflow. unfold readClu_line.
  rewrite (clu_record_text_is_record _ _ _ Hsid). run_monad.
  destruct flow as [[ip fp]|].
  - destruct (readClu_line_ids stateId moduleId (flow_column ip fp)
                Hsid Hmid) as [-> ->]; [done|].
    unfold flow_column. cbn [is_empty Stream.fail failbit].
    change (mkStream ?x false false) with (Stream.str x).
    rewrite (extract_double_space " "); [|done].
    rewrite <- (append_empty_r (flow_text ip fp)).
    rewrite (extract_double_flow ip fp _ Hflow); [|done].
    simpl. by destruct includeFlow.
  - destruct (readClu_line_ids stateId moduleId EmptyString Hsid Hmid)
      as [-> ->]; [done|].
    simpl. reflexivity.
Qed.

(** X14.  In single-layer mode a well-formed record of a cluster file (a
    state id, a module, and a flow written with a dot or nothing) stores
    the module under the state id, replacing what was there, and the flow
    under the same state id when there is one and flows are asked for. *)
Theorem wellformed_clu_record_is_stored
    includeFlow stateId moduleId flow this :
  uint_text stateId = true -> uint_text moduleId = true ->
  match flow with
  | Some (ip, fp) => flow_ok ip fp = true
  | None => True
  end ->
  readClu_line includeFlow None
    (clu_record_text stateId moduleId
       (match flow with
        | Some (ip, fp) => flow_column ip fp
        | None => EmptyString
        end)) this
  = (Normal tt,
     set_clusterIds <[value stateId := value moduleId]>
       (match flow with
        | Some (ip, fp) =>
            if includeFlow
            then set_flowData <[value stateId := flow_value ip fp]> this
            else this
        | None => this
        end)).
Proof. apply clu_record_text_run. Qed.

Lemma wellformed_clu_record_is_stored_witness :
  readClu_line true None
    (clu_record_text "5" "3" (flow_column "0" "1")) used
  = (Normal tt,
     set_clusterIds <[value "5" := value "3"]>
       (set_flowData <[value "5" := flow_value "0" "1"]> used)).
Proof.
  apply (wellformed_clu_record_is_stored true "5" "3" (Some ("0", "1")) used);
    by vm_compute.
Defined.

(** X15.  In multilayer mode a well-formed record of a cluster file (state
    id, module, flow, node id, layer id) is looked up in the index under
    (layer, node): when the pair is there the module is stored under the
    state id of the index, when it is not the line is passed over.  (Read
    without flows, so that the modules are all that is written.) *)
Theorem wellformed_multilayer_clu_record_is_resolved
    table stateId moduleId ip fp nodeId layerId this :
  uint_text stateId = true -> uint_text moduleId = true ->
  flow_ok ip fp = true ->
  uint_text nodeId = true -> uint_text layerId = true ->
  readClu_line false (Some table)
    (clu_record_text stateId moduleId
       (String " " (flow_text ip fp +:+ fields_text [nodeId; layerId]))) this
  = match resolve table (value layerId) (value nodeId) with
    | Some resolved =>
        (Normal tt, set_clusterIds <[resolved := value moduleId]> this)
    | None => (Continue, this)
    end.
Proof.
  intros Hsid Hmid Hflow Hnode Hlayer. unfold readClu_line.
  rewrite (clu_record_text_is_record _ _ _ Hsid). run_monad.
  destruct (readClu_line_ids stateId moduleId
              (String " " (flow_text ip fp +:+ fields_text [nodeId; layerId]))
              Hsid Hmid) as [-> ->]; [done|].
  cbn [is_empty Stream.fail failbit].
  change (mkStream ?x false false) with (Stream.str x).
  rewrite (extract_double_space " "); [|done].
  rewrite (extract_double_flow ip fp _ Hflow); [|done].
  simpl (fields_text _). cbn [is_empty Stream.fail failbit negb andb].
  change (mkStream ?x false false) with (Stream.str x).
  rewrite (extract_unsigned_space " "); [|done].
  rewrite (extract_unsigned_text nodeId _ Hnode); [|done].
  cbn [is_empty Stream.fail failbit].
  change (mkStream ?x false false) with (Stream.str x).
  rewrite (extract_unsigned_space " "); [|done].
  rewrite (extract_unsigned_text layerId _ Hlayer); [|done].
  simpl. by destruct (resolve table (value layerId) (value nodeId)).
Qed.

Lemma wellformed_multilayer_clu_record_is_resolved_witness :
  readClu_line false (Some {[2 := {[10 := 42]}]})
    (clu_record_text "5" "3"
       (String " " (flow_text "0" "1" +:+ fields_text ["10"; "2"]))) used
  = match resolve {[2 := {[10 := 42]}]} (value "2") (value "10") with
    | Some resolved =>
        (Normal tt, set_clusterIds <[resolved := value "3"]> used)
    | None => (Continue, used)
    end.
Proof.
  apply (wellformed_multilayer_clu_record_is_resolved {[2 := {[10 := 42]}]}
           "5" "3" "0" "1" "10" "2" used); by vm_compute.
Defined.

(** The cluster loop has no [break]. *)
Lemma readClu_line_no_break includeFlow table line this this' :
  readClu_line includeFlow table line this <> (Break, this').
Proof.
  unfold readClu_line.
  destruct (_ || _); [done|].
  run_monad.
  destruct (Stream.extract_unsigned (Stream.str line)) as [s1 stateId].
  destruct (Stream.extract_unsigned s1) as [s2 moduleId].
  destruct (Stream.fail s2); simpl; [done|].
  destruct (Stream.extract_double s2) as [s3 flow].
  destruct (Stream.fail s3), includeFlow; simpl;
    (destruct table as [table|]; simpl; [|done]);
    (destruct (Stream.extract_unsigned s3) as [s4 nodeId]);
    (destruct (Stream.fail s4); simpl; [done|]);
    (destruct (Stream.extract_unsigned s4) as [s5 layerId]);
    (destruct (Stream.fail s5); simpl; [done|]);
    (destruct (resolve table layerId nodeId); simpl; done).
Qed.

(** When the cluster loop returns, it has read all its lines, and goes on
    from there with any further lines. *)
Lemma readClu_loop_app includeFlow table pre rest this this1 :
  readClu_loop includeFlow table pre this = (Normal tt, this1) ->
  readClu_loop includeFlow table (pre ++ rest)%list this
  = readClu_loop includeFlow table rest this1.
Proof.
  revert this. induction pre as [|l pre IH]; intros this.
  - by intros [= <-].
  - simpl app. rewrite !readClu_loop_cons.
    pose proof (readClu_line_no_break includeFlow table l this) as Hnb.
    destruct (readClu_line _ _ _ this) as [[[]| | |e] this0];
      try done; try apply IH.
    by destruct (Hnb this0).
Qed.

(** X16.  In the cluster loop the last record of a state id decides its
    module: after lines that were read without an error, one more
    well-formed record stores its module under its state id, whatever was
    stored there, and leaves the modules of all other state ids as the
    earlier lines left them. *)
Theorem last_clu_record_of_a_state_id_wins
    includeFlow lines stateId moduleId this this1 :
  readClu_loop includeFlow None lines this = (Normal tt, this1) ->
  uint_text stateId = true -> uint_text moduleId = true ->
  let result :=
    readClu_loop includeFlow None
      (lines ++ [clu_record_text stateId moduleId EmptyString])%list this in
  result.1 = Normal tt
  /\ m_clusterIds result.2 !! value stateId = Some (value moduleId)
  /\ forall k, k <> value stateId ->
               m_clusterIds result.2 !! k = m_clusterIds this1 !! k.
Proof.
  intros Hrun Hsid Hmid. cbv zeta.
  rewrite (readClu_loop_app _ _ _ _ _ _ Hrun), readClu_loop_cons.
  rewrite (clu_record_text_run includeFlow stateId moduleId
             None this1 Hsid Hmid I).
  simpl. split_and!; [done | apply lookup_insert_eq |].
  intros k Hk. by rewrite lookup_insert_ne.
Qed.

Lemma last_clu_record_of_a_state_id_wins_witness :
  let result :=
    readClu_loop false None
      (["5 3"; "6 4"] ++ [clu_record_text "5" "9" EmptyString])%list fresh in
  result.1 = Normal tt
  /\ m_clusterIds result.2 !! value "5" = Some (value "9")
  /\ forall k, k <> value "5" ->
               m_clusterIds result.2 !! k
               = m_clusterIds
                   (readClu_loop false None ["5 3"; "6 4"] fresh).2 !! k.
Proof.
  apply (last_clu_record_of_a_state_id_wins
           false ["5 3"; "6 4"] "5" "9" fresh
           (readClu_loop false None ["5 3"; "6 4"] fresh).2);
    by vm_compute.
Defined.

Lemma isspace_not_exp c :
  Char.isspace c = true ->
  Char.isexp c = false /\ Char.eqb c Char.dot = false.
Proof.
  unfold Char.isspace, Char.isexp, Char.eqb.
  change (Char.code Char.dot) with 46. char_arith.
Qed.

(** An integer in front of white space is a complete number for
    [operator>>] on a double. *)
Lemma extract_double_integer ds sp rest :
  numeral ds = true -> (String.length ds <= 300)%nat ->
  Char.isspace sp = true ->
  Stream.extract_double (Stream.str (ds +:+ String sp rest))
  = (Stream.str (String sp rest),
     decimal (Z.of_N (digits_val 0 (ds +:+ EmptyString))) 0).
Proof.
  intros Hnum Hlen Hsp.
  pose proof Hnum as Hnum'. apply andb_prop in Hnum' as [Hne Hds].
  destruct ds as [|c ds]; [done|].
  pose proof Hds as Hds'. simpl in Hds'.
  apply andb_prop in Hds' as [Hc _].
  destruct (isdigit_not_sign c Hc) as [Hm Hp].
  destruct (isspace_not_exp sp Hsp) as [He Hdot].
  unfold Stream.extract_double, Stream.sentry.
  rewrite !append_cons. simpl.
  rewrite (isdigit_not_space c Hc). simpl. rewrite Hm, Hp.
  rewrite <- append_cons.
  rewrite (span_digits (String c ds) (String sp rest) Hds);
    [|by simpl; rewrite (isspace_not_digit sp Hsp)].
  rewrite Hdot, He.
  assert (is_empty (String c ds +:+ EmptyString) = false) as Hmant by done.
  rewrite Hmant.
  assert (Qle_bool DBL_OVERFLOW
            (Qabs (decimal
                     (Z.of_N (digits_val 0 (String c ds +:+ EmptyString)))
                     (0 - Z.of_nat (String.length EmptyString)))) = false)
    as Hfin.
  { change (0 - Z.of_nat (String.length EmptyString))%Z
      with (- Z.of_nat 0)%Z.
    apply decimal_in_range. rewrite append_empty_r.
    pose proof (value_bound (String c ds) 300 Hds Hlen) as Hb.
    unfold value in Hb. split; [apply N2Z.is_nonneg|].
    apply N2Z.inj_lt in Hb. rewrite N2Z.inj_pow, nat_N_Z in Hb.
    exact Hb. }
  cbv beta iota zeta. cbn [negb andb]. rewrite Hfin. reflexivity.
Qed.

(** X17.  In multilayer mode the cluster reader takes the third column
    for the flow whether flows are asked for or not: a record that gives
    state id, module, node id and layer id without a flow column has its
    node id read as the flow and its layer id as the node id, and is
    rejected for its missing layer id. *)
Theorem multilayer_clu_record_needs_the_flow_column
    includeFlow table stateId moduleId nodeId layerId this :
  uint_text stateId = true -> uint_text moduleId = true ->
  uint_text nodeId = true -> (String.length nodeId <= 300)%nat ->
  uint_text layerId = true ->
  let line :=
    clu_record_text stateId moduleId (fields_text [nodeId; layerId]) in
  (readClu_line includeFlow (Some table) line this).1
  = Throw (cant_parse_layer line).
Proof.
  intros Hsid Hmid Hnode Hlen Hlayer. cbv zeta. unfold readClu_line.
  rewrite (clu_record_text_is_record _ _ _ Hsid). run_monad.
  destruct (readClu_line_ids stateId moduleId
              (fields_text [nodeId; layerId]) Hsid Hmid) as [-> ->]; [done|].
  simpl (fields_text _). cbn [is_empty Stream.fail failbit].
  change (mkStream ?x false false) with (Stream.str x).
  rewrite (extract_double_space " "); [|done].
  assert (numeral nodeId = true) as Hnum.
  { unfold uint_text in Hnode. by apply andb_prop in Hnode as [H _]. }
  rewrite (extract_double_integer nodeId " " _ Hnum Hlen); [|done].
  cbn [is_empty Stream.fail Stream.str failbit negb andb].
  change (mkStream ?x false false) with (Stream.str x).
  rewrite (extract_unsigned_space " "); [|done].
  rewrite (extract_unsigned_text layerId _ Hlayer); [|done].
  destruct includeFlow; reflexivity.
Qed.

Lemma multilayer_clu_record_needs_the_flow_column_witness :
  (readClu_line true (Some {[2 := {[10 := 42]}]})
     (clu_record_text "5" "3" (fields_text ["10"; "2"])) used).1
  = Throw (cant_parse_layer
             (clu_record_text "5" "3" (fields_text ["10"; "2"]))).
Proof.
  apply (multilayer_clu_record_needs_the_flow_column
           true {[2 := {[10 := 42]}]} "5" "3" "10" "2" used);
    first [by vm_compute | simpl; lia].
Defined.

(** ** Comments and empty lines *)

Lemma readTree_fields_shift n n' line :
  readTree_fields n line = readTree_fields n' line
  \/ exists m m', readTree_fields n line = inl (BadConversionError m)
                  /\ readTree_fields n' line = inl (BadConversionError m').
Proof.
  unfold readTree_fields, cant_parse_name.
  repeat match goal with
  | |- context [let '(_, _) := ?p in _] => destruct p
  | |- context [if ?b then _ else _] => destruct b
  end; first [by left | right; eauto].
Qed.

(** The line number of a turn of the tree loop shows in the text of the
    name error only. *)
Lemma readTree_line_shift includeFlow table n n' line this :
  same_but_text (readTree_line includeFlow table n line this)
                (readTree_line includeFlow table n' line this).
Proof.
  unfold readTree_line, same_but_text.
  destruct (_ =? _)%nat; [by split; [|left]|].
  destruct (starts_with Char.hash line); [by split; [|left]|].
  destruct (starts_with Char.star line); [by split; [|left]|].
  unfold readTree_record. run_monad.
  destruct (readTree_fields_shift n n' line) as [-> | (m & m' & -> & ->)].
  - by split; [|left].
  - simpl. split; [done|]. right. eauto.
Qed.

Lemma readTree_loop_shift includeFlow table lines n n' this :
  same_but_text (readTree_loop includeFlow table lines n this)
                (readTree_loop includeFlow table lines n' this).
Proof.
  revert n n' this. induction lines as [|line lines IH]; intros n n' this.
  - by split; [|left].
  - rewrite !readTree_loop_cons.
    pose proof (readTree_line_shift includeFlow table
                  (uwrap (Z.of_N n + 1)) (uwrap (Z.of_N n' + 1)) line this)
      as Hl.
    destruct (readTree_line _ _ (uwrap (Z.of_N n + 1)) _ this) as [c1 s1].
    destruct (readTree_line _ _ (uwrap (Z.of_N n' + 1)) _ this) as [c2 s2].
    destruct Hl as [Hs [Hc | (m & m' & Hc1 & Hc2)]]; simpl in *; subst.
    + destruct c2 as [[]| | |e]; try apply IH; by split; [|left].
    + split; [done|]. right. eauto.
Qed.

Lemma readTree_line_comment includeFlow table n line this :
  is_comment line = true ->
  readTree_line includeFlow table n line this = (Continue, this).
Proof.
  unfold is_comment, readTree_line. intros H.
  destruct (_ =? _)%nat; [done|]. simpl in H. by rewrite H.
Qed.

Lemma readClu_line_comment includeFlow table line this :
  is_comment line = true ->
  readClu_line includeFlow table line this = (Continue, this).
Proof.
  unfold is_comment, readClu_line. intros H. by rewrite H.
Qed.

(** X18.  Empty lines and comment lines carry nothing: taking one out of
    the lines of the cluster loop changes nothing at all, and taking one
    out of the lines of the tree loop leaves the same object and the same
    outcome, but for the line number in the text of a name error. *)
Theorem comment_lines_only_shift_the_line_numbers
    includeFlow table pre line post lineNr this :
  is_comment line = true ->
  same_but_text
    (readTree_loop includeFlow table (pre ++ line :: post)%list lineNr this)
    (readTree_loop includeFlow table (pre ++ post)%list lineNr this)
  /\ readClu_loop includeFlow table (pre ++ line :: post)%list this
     = readClu_loop includeFlow table (pre ++ post)%list this.
Proof.
  intros Hline. split.
  - revert lineNr this. induction pre as [|l pre IH]; intros lineNr this.
    + simpl app.
      rewrite readTree_loop_cons, (readTree_line_comment _ _ _ _ _ Hline).
      apply readTree_loop_shift.
    + simpl app. rewrite !readTree_loop_cons.
      destruct (readTree_line _ _ _ _ this) as [[[]| | |e] this1];
        try apply IH; by split; [|left].
  - revert this. induction pre as [|l pre IH]; intros this.
    + simpl app.
      by rewrite readClu_loop_cons, (readClu_line_comment _ _ _ _ Hline).
    + simpl app. rewrite !readClu_loop_cons.
      destruct (readClu_line _ _ _ this) as [[[]| | |e] this1];
        try done; apply IH.
Qed.

Lemma comment_lines_only_shift_the_line_numbers_witness :
  same_but_text
    (readTree_loop true None
       ([sample_record] ++ "# modules" :: ["1:1:3 0.5 3"])%list 0 fresh)
    (readTree_loop true None
       ([sample_record] ++ ["1:1:3 0.5 3"])%list 0 fresh)
  /\ readClu_loop true None
       ([sample_record] ++ "# modules" :: ["1:1:3 0.5 3"])%list fresh
     = readClu_loop true None
         ([sample_record] ++ ["1:1:3 0.5 3"])%list fresh.
Proof.
  apply (comment_lines_only_shift_the_line_numbers
           true None [sample_record] "# modules" ["1:1:3 0.5 3"] 0 fresh).
  reflexivity.
Defined.
